(** * junit2otlp: the Git attribute contributor ([git.go])

    A shallow embedding of [git.go] and a verification of its specification.

    The program reads a local Git checkout through the go-git library and
    returns a list of OpenTelemetry attributes.  The embedding has three
    layers:

    - the Go values the program handles ([errors], [attribute], [plumbing],
      [config], [object], [git]): errors that may be [nil], key/value
      attributes, commits, and a repository seen through the methods the
      program calls on it;
    - the program itself, function by function, under the names of the
      source ([calculateCommits], [checkGitProvider], [contributeAttributes],
      [contributeCommitters], [contributeFilesAndLines], [mapToArray],
      [openLocalRepository]);
    - a model of a repository's object store ([Store]), on which the
      operations of go-git are written out as the specification describes
      them, for the statements that are about the history and the trees
      themselves.

    Writes to the standard output ([fmt.Printf]) are left out: they have no
    influence on any returned value. *)

From stdpp Require Import base numbers list strings gmap.
From Stdlib Require Import ZArith Lia Ascii.

Set Warnings "-clear-no-such-hyp".

Open Scope string_scope.
Open Scope list_scope.
Open Scope Z_scope.

(** ** Go values *)

(** Go's [int] on the 64-bit platforms the tool is built for. *)
Module int.
Definition MaxInt : Z := 2 ^ 63 - 1.
Definition MinInt : Z := - 2 ^ 63.
Definition wrap (z : Z) : Z := (z + 2 ^ 63) mod 2 ^ 64 - 2 ^ 63.
Definition add (a b : Z) : Z := wrap (a + b).
Definition InRange (z : Z) : Prop := MinInt <= z <= MaxInt.
End int.

(** Go's [error] interface as the program uses it, with the two functions of
    [github.com/pkg/errors] and [fmt] it calls. *)
Module errors.

(** A non-nil error: one made by a library, or one annotated by [Wrapf]. *)
Inductive error_value : Type :=
| New (msg : string)
| withMessage (cause : error_value) (msg : string).

(** [error] is an interface: [None] is [nil]. *)
Definition error : Type := option error_value.

(** The [Error()] method: an annotated error prints its message, a colon and
    its cause. *)
Fixpoint Error (e : error_value) : string :=
  match e with
  | New msg => msg
  | withMessage cause msg => msg +:+ ": " +:+ Error cause
  end.

(** How [%v] prints an [error]. *)
Definition verb_v (err : error) : string :=
  match err with
  | Some e => Error e
  | None => "<nil>"
  end.

(** [fmt.Sprintf] for the verbs the program uses ([%s] and [%v]), with the
    operands already printed. *)
Fixpoint Sprintf (format : string) (args : list string) : string :=
  match format with
  | EmptyString => EmptyString
  | String "%"%char (String _ rest) =>
      match args with
      | a :: args' => a +:+ Sprintf rest args'
      | [] => "%!v(MISSING)" +:+ Sprintf rest []
      end
  | String ch rest => String ch (Sprintf rest args)
  end.

(** [errors.Wrapf]: "If err is nil, Wrapf returns nil." *)
Definition Wrapf (err : error) (format : string) (args : list string) : error :=
  match err with
  | None => None
  | Some e => Some (withMessage e (Sprintf format args))
  end.

End errors.

(** A function of a library that returns [(T, error)] returns a usable value
    exactly when the error is [nil]. *)
Inductive result (T : Type) : Type :=
| Ok (v : T)
| Err (e : errors.error_value).
Arguments Ok {T} v.
Arguments Err {T} e.

(** [go.opentelemetry.io/otel/attribute]. *)
Module attribute.

Inductive Value : Type :=
| STRING (s : string)
| STRINGSLICE (l : list string)
| INT64 (n : Z).

Record KeyValue : Type := { Key : string; Val : Value }.

(** [attribute.Key(k).String(v)], [.StringSlice(v)] and [.Int(v)]. *)
Definition String (k : string) (v : string) : KeyValue :=
  {| Key := k; Val := STRING v |}.
Definition StringSlice (k : string) (v : list string) : KeyValue :=
  {| Key := k; Val := STRINGSLICE v |}.
Definition Int (k : string) (v : Z) : KeyValue :=
  {| Key := k; Val := INT64 v |}.

End attribute.

(** [github.com/go-git/go-git/v5/plumbing]. *)
Module plumbing.

(** A content hash, written in hexadecimal. *)
Definition Hash : Type := string.

Record Reference : Type := { Name : string; RefHash : Hash }.

End plumbing.

(** [github.com/go-git/go-git/v5/config]. *)
Module config.

Record Branch : Type := { Name : string; Remote : string; Merge : string }.

Record RemoteConfig : Type := { RemoteName : string; URLs : list string }.

End config.

(** [github.com/go-git/go-git/v5/plumbing/object]. *)
Module object.

(** [time.Time] as an instant: seconds since the epoch. *)
Definition Time : Type := Z.

Record Signature : Type := { Name : string; Email : string; When : Time }.

Record Commit : Type := {
  Hash : plumbing.Hash;
  Author : Signature;
  Committer : Signature;
  Message : string;
  TreeHash : plumbing.Hash;
  ParentHashes : list plumbing.Hash
}.

(** A file of a tree: its lines, or bytes that are not text. *)
Inductive Blob : Type :=
| Text (lines : list string)
| Binary (bytes : string).

#[global] Instance Signature_eq_dec : EqDecision Signature.
Proof. solve_decision. Defined.

#[global] Instance Commit_eq_dec : EqDecision Commit.
Proof. solve_decision. Defined.

#[global] Instance Blob_eq_dec : EqDecision Blob.
Proof. solve_decision. Defined.

(** A tree, flattened: the files of the snapshot by path. *)
Record Tree : Type := { TreeId : plumbing.Hash; Files : gmap string Blob }.

Record FileStat : Type := { FileName : string; Addition : Z; Deletion : Z }.

(** A patch, seen through its [Stats()] method. *)
Record Patch : Type := { Stats : list FileStat }.

(** A commit iterator: the commits it yields, in order, and the error that
    ends the iteration if one does. *)
Record CommitIter : Type := { Commits : list Commit; IterErr : errors.error }.

(** [iter.ForEach(cb)]: calls [cb] on each commit; the callback updates the
    variables it captured ([S]) and the iteration stops at the first error. *)
Fixpoint ForEach_from {S : Type} (cs : list Commit)
    (cb : Commit -> S -> S * errors.error) (s : S) (last : errors.error)
    : S * errors.error :=
  match cs with
  | [] => (s, last)
  | c :: cs' =>
      match cb c s with
      | (s', Some e) => (s', Some e)
      | (s', None) => ForEach_from cs' cb s' last
      end
  end.

Definition ForEach {S : Type} (it : CommitIter)
    (cb : Commit -> S -> S * errors.error) (s : S) : S * errors.error :=
  ForEach_from (Commits it) cb s (IterErr it).

End object.

(** [github.com/go-git/go-git/v5]. *)
Module git.

Record LogOptions : Type := {
  From : plumbing.Hash;
  Since : option object.Time
}.

(** A repository, seen through the methods the program calls on it and on
    the commits and trees it hands out (those read the repository's object
    store).  Every method is a query. *)
Record Repository : Type := {
  Branch : string -> result config.Branch;
  ResolveRevision : string -> result plumbing.Hash;
  CommitObject : plumbing.Hash -> result object.Commit;
  Head : result plumbing.Reference;
  Remote : string -> result config.RemoteConfig;
  Log : LogOptions -> result object.CommitIter;
  MergeBase : object.Commit -> object.Commit -> result (list object.Commit);
  Tree : object.Commit -> result object.Tree;
  Patch : object.Tree -> object.Tree -> result object.Patch
}.

End git.

(** What the program reads from its host: the file system through
    [git.PlainOpen], the environment through [os.Getenv], and
    [plumbing.NewHash], which turns a hexadecimal string into a hash. *)
Record Host : Type := {
  PlainOpen : string -> result git.Repository;
  Getenv : string -> string;
  NewHash : string -> plumbing.Hash
}.

(** The order in which a [range] loop visits the keys of a map is not
    specified and changes from one loop to the next: each loop is given the
    order it will follow. *)
Record RangeOrder : Type := {
  range_keys :> list string -> list string;
  range_keys_perm : forall l, range_keys l ≡ₚ l
}.

Definition range_in_order : RangeOrder :=
  {| range_keys := fun l => l; range_keys_perm := fun l => reflexivity l |}.

Definition range_reversed : RangeOrder :=
  {| range_keys := @reverse string; range_keys_perm := @reverse_Permutation string |}.

(** ** The attribute keys *)

(** Modelled from the spec: the key constants ([ScmType], ...) are declared
    in a file that is not under [src/]; section 6 of the specification lists
    the keys. *)
Definition ScmType : string := "scm-type".
Definition ScmProvider : string := "scm-provider".
Definition ScmRepository : string := "scm-repository".
Definition ScmBranch : string := "scm-branch".
Definition ScmAuthors : string := "scm-authors".
Definition ScmCommitters : string := "scm-committers".
Definition GitAdditions : string := "git-additions".
Definition GitDeletions : string := "git-deletions".
Definition GitModifiedFiles : string := "git-modified-files".

(** ** The program *)

Record GitScm : Type := { repositoryPath : string }.

Section Program.

Context (host : Host).

(** [calculateCommits]: the commits of HEAD and of the target branch. *)
Definition calculateCommits (repository : git.Repository) (headSha : string)
    (targetBranchEnv : string)
    : option object.Commit * option object.Commit * errors.error :=
  match git.Branch repository targetBranchEnv with
  | Err err =>
      (None, None,
       errors.Wrapf (Some err) "not able to retrieve the %s TARGET_BRANCH: %v"
         [targetBranchEnv; errors.verb_v (Some err)])
  | Ok targetBranch =>
  match git.ResolveRevision repository (config.Merge targetBranch) with
  | Err err =>
      (None, None,
       errors.Wrapf (Some err) "not able to retrieve ref from TARGET_BRANCH: %v"
         [errors.verb_v (Some err)])
  | Ok targetRef =>
  match git.CommitObject repository targetRef with
  | Err err =>
      (None, None,
       errors.Wrapf (Some err) "not able to retrieve commit from TARGET_BRANCH: %v"
         [errors.verb_v (Some err)])
  | Ok targetCommit =>
  let loadHead (headRefSha : plumbing.Hash) :=
    match git.CommitObject repository headRefSha with
    | Err err =>
        (None, None,
         errors.Wrapf (Some err) "not able to retrieve commit from HEAD: %v"
           [errors.verb_v (Some err)])
    | Ok headCommit => (Some headCommit, Some targetCommit, None)
    end in
  if decide (headSha = "") then
    match git.Head repository with
    | Err err =>
        (None, None,
         errors.Wrapf (Some err) "not able to retrieve ref from HEAD: %v"
           [errors.verb_v (Some err)])
    | Ok headRef => loadHead (plumbing.RefHash headRef)
    end
  else loadHead (NewHash host headSha)
  end end end.

(** [checkGitProvider]: the head revision, the target branch and the provider,
    from the variables a Git provider sets. *)
Definition checkGitProvider : string * string * string :=
  let sha := Getenv host "GITHUB_SHA" in
  let baseRef := Getenv host "GITHUB_BASE_REF" in
  if bool_decide (sha ≠ "") && bool_decide (baseRef ≠ "") then (sha, baseRef, "Github")
  else
    let sha := Getenv host "CI_MERGE_REQUEST_SOURCE_BRANCH_SHA" in
    let baseRef := Getenv host "CI_MERGE_REQUEST_TARGET_BRANCH_NAME" in
    if bool_decide (sha ≠ "") && bool_decide (baseRef ≠ "") then (sha, baseRef, "Gitlab")
    else
      let baseRef := Getenv host "TARGET_BRANCH" in
      ("", baseRef, "").

(** [mapToArray]: the keys of the map, in the order the [range] loop visits
    them. *)
Definition mapToArray (order : RangeOrder) (m : gmap string bool) : list string :=
  fold_left (fun array k => array ++ [k]) (order (map_to_list m).*1) [].

(** The closure given to [ForEach] in [contributeCommitters]; the variables
    it captures are the two maps. *)
Definition record_emails (c : object.Commit)
    (maps : gmap string bool * gmap string bool)
    : gmap string bool * gmap string bool * errors.error :=
  let '(authors, committers) := maps in
  let authors := <[object.Email (object.Author c) := true]> authors in
  let committers := <[object.Email (object.Committer c) := true]> committers in
  ((authors, committers), None).

(** [contributeCommitters]: the e-mail addresses of the authors and of the
    committers of the commits between the common ancestor and HEAD. *)
Definition contributeCommitters (orderAuthors orderCommitters : RangeOrder)
    (repository : git.Repository) (headCommit targetCommit : object.Commit)
    : list attribute.KeyValue * errors.error :=
  let attributes : list attribute.KeyValue := [] in
  match git.MergeBase repository headCommit targetCommit with
  | Err err =>
      (attributes,
       errors.Wrapf (Some err)
         "not able to find a common ancestor between HEAD and TARGET_BRANCH: %v"
         [errors.verb_v (Some err)])
  | Ok commits =>
  (* past the check above, [err] is nil *)
  let err : errors.error := None in
  match commits with
  | [] =>
      (attributes,
       errors.Wrapf err
         "not able to find a common ancestor between HEAD and TARGET_BRANCH: %v"
         [errors.verb_v err])
  | ancestor :: _ =>
  match git.Log repository
          {| git.From := object.Hash headCommit;
             git.Since := Some (object.When (object.Author ancestor)) |} with
  | Err err =>
      (attributes,
       errors.Wrapf (Some err)
         "not able to retrieve commits between HEAD and TARGET_BRANCH: %v"
         [errors.verb_v (Some err)])
  | Ok commitsIterator =>
  let '(authors, committers, _) :=
    object.ForEach commitsIterator record_emails (∅, ∅) in
  let attributes :=
    if decide (0 < size authors)%nat
    then attributes ++ [attribute.StringSlice ScmAuthors (mapToArray orderAuthors authors)]
    else attributes in
  let attributes :=
    if decide (0 < size committers)%nat
    then attributes ++ [attribute.StringSlice ScmCommitters (mapToArray orderCommitters committers)]
    else attributes in
  (attributes, None)
  end end end.

(** The body of the loop over [patch.Stats()] in [contributeFilesAndLines]. *)
Definition add_fileStat (acc : list string * Z * Z) (fileStat : object.FileStat)
    : list string * Z * Z :=
  let '(changedFiles, additions, deletions) := acc in
  let additions := int.add additions (object.Addition fileStat) in
  let deletions := int.add deletions (object.Deletion fileStat) in
  (changedFiles ++ [object.FileName fileStat], additions, deletions).

(** [contributeFilesAndLines]: the number of files that differ between the
    trees of the two commits, and the lines added and deleted. *)
Definition contributeFilesAndLines (repository : git.Repository)
    (headCommit targetCommit : object.Commit)
    : list attribute.KeyValue * errors.error :=
  let attributes : list attribute.KeyValue := [] in
  match git.Tree repository headCommit with
  | Err err =>
      (attributes,
       errors.Wrapf (Some err) "not able to find a HEAD tree: %v"
         [errors.verb_v (Some err)])
  | Ok headTree =>
  match git.Tree repository targetCommit with
  | Err err =>
      (attributes,
       errors.Wrapf (Some err) "not able to find a TARGET_BRANCH tree: %v"
         [errors.verb_v (Some err)])
  | Ok targetTree =>
  match git.Patch repository headTree targetTree with
  | Err err =>
      (attributes,
       errors.Wrapf (Some err)
         "not able to find the pathc between HEAD and TARGET_BRANCH trees: %v"
         [errors.verb_v (Some err)])
  | Ok patch =>
  let '(changedFiles, additions, deletions) :=
    fold_left add_fileStat (object.Stats patch) ([], 0, 0) in
  let attributes := attributes ++ [attribute.Int GitAdditions additions] in
  let attributes := attributes ++ [attribute.Int GitDeletions deletions] in
  let attributes :=
    attributes ++ [attribute.Int GitModifiedFiles (Z.of_nat (length changedFiles))] in
  (attributes, None)
  end end end.

(** [openLocalRepository]. *)
Definition openLocalRepository (scm : GitScm)
    : option git.Repository * errors.error :=
  match PlainOpen host (repositoryPath scm) with
  | Err err => (None, Some err)
  | Ok repository => (Some repository, None)
  end.

(** A contribution, as the loop of [contributeAttributes] calls it. *)
Definition contribution : Type :=
  git.Repository -> object.Commit -> object.Commit
  -> list attribute.KeyValue * errors.error.

(** One turn of the loop over the contributions. *)
Definition contribute (repository : git.Repository)
    (headCommit targetCommit : object.Commit)
    (gitAttributes : list attribute.KeyValue) (c : contribution)
    : list attribute.KeyValue :=
  match c repository headCommit targetCommit with
  | (_, Some err) => gitAttributes
  | (contributtedAttributes, None) => gitAttributes ++ contributtedAttributes
  end.

(** [contributeAttributes].  The result is [None] where the Go program would
    stop on a nil pointer: a function returned neither a value nor an
    error. *)
Definition contributeAttributes (orderAuthors orderCommitters : RangeOrder)
    (scm : GitScm) : option (list attribute.KeyValue) :=
  match openLocalRepository scm with
  | (_, Some err) => Some []
  | (None, None) => None
  | (Some repository, None) =>
  let headSha := checkGitProvider.1.1 in
  let targetBranchEnv := checkGitProvider.1.2 in
  let gitProvider := checkGitProvider.2 in
  let gitAttributes := [attribute.String ScmType "git"] in
  let gitAttributes :=
    if decide (gitProvider ≠ "")
    then gitAttributes ++ [attribute.String ScmProvider gitProvider]
    else gitAttributes in
  match git.Remote repository "origin" with
  | Err err => Some gitAttributes
  | Ok origin =>
  let gitAttributes :=
    gitAttributes ++ [attribute.StringSlice ScmRepository (config.URLs origin)] in
  match git.Head repository with
  | Err err => Some gitAttributes
  | Ok branch =>
  let gitAttributes :=
    gitAttributes ++ [attribute.String ScmBranch (plumbing.Name branch)] in
  match calculateCommits repository headSha targetBranchEnv with
  | (_, _, Some err) => Some gitAttributes
  | (Some headCommit, Some targetCommit, None) =>
      let contributions : list contribution :=
        [contributeCommitters orderAuthors orderCommitters; contributeFilesAndLines] in
      Some (fold_left (contribute repository headCommit targetCommit)
              contributions gitAttributes)
  | (_, _, None) => None
  end end end end.

End Program.

(** ** A repository's object store *)

(** The operations of go-git are not part of the program; where a statement
    is about what they compute (the common ancestor, the walk over the
    history, the patch between two trees) they are written out here over the
    contents of a repository, following the specification. *)
Module Model.

Record Store : Type := {
  commits : list object.Commit;
  trees : list object.Tree;
  branches : list config.Branch;
  references : list plumbing.Reference;
  HEAD : option plumbing.Reference;
  remotes : list config.RemoteConfig
}.

Definition ErrBranchNotFound : errors.error_value := errors.New "branch not found".
Definition ErrReferenceNotFound : errors.error_value := errors.New "reference not found".
Definition ErrObjectNotFound : errors.error_value := errors.New "object not found".
Definition ErrRemoteNotFound : errors.error_value := errors.New "remote not found".

(** The first element of a list that carries the wanted name. *)
Fixpoint lookup_by {A : Type} (name : A -> string) (l : list A) (n : string)
    : option A :=
  match l with
  | [] => None
  | x :: l' => if decide (name x = n) then Some x else lookup_by name l' n
  end.

Definition from_option {A : Type} (e : errors.error_value) (o : option A) : result A :=
  match o with
  | Some x => Ok x
  | None => Err e
  end.

Section Operations.

Context (s : Store).

(** Modelled from the spec: go-git's [Repository.Branch]; "look up a branch
    configuration by name; if absent, fail". *)
Definition Branch (name : string) : result config.Branch :=
  from_option ErrBranchNotFound (lookup_by config.Name (branches s) name).

(** Modelled from the spec: go-git's [Repository.ResolveRevision]; "resolve
    that reference to a concrete revision; fail if the reference cannot be
    dereferenced". *)
Definition ResolveRevision (rev : string) : result plumbing.Hash :=
  from_option ErrReferenceNotFound
    (plumbing.RefHash <$> lookup_by plumbing.Name (references s) rev).

Definition commit_of (h : plumbing.Hash) : option object.Commit :=
  lookup_by object.Hash (commits s) h.

(** Modelled from the spec: go-git's [Repository.CommitObject]; "load the
    full commit object, failing if the object store lacks it". *)
Definition CommitObject (h : plumbing.Hash) : result object.Commit :=
  from_option ErrObjectNotFound (commit_of h).

(** Modelled from the spec: go-git's [Repository.Head]; "read the
    repository's current HEAD pointer; fail if none exists". *)
Definition Head : result plumbing.Reference :=
  from_option ErrReferenceNotFound (HEAD s).

(** Modelled from the spec: go-git's [Repository.Remote]. *)
Definition Remote (name : string) : result config.RemoteConfig :=
  from_option ErrRemoteNotFound (lookup_by config.RemoteName (remotes s) name).

(** Modelled from the spec: the traversal of go-git's commit iterator;
    "traversal follows parent edges (supports merge commits with multiple
    parents); visits each commit at most once ([...] a visited-set guards
    against revisits through multiple merge paths)".  [stack] holds the
    hashes still to visit and [seen] the visited set; a hash without a commit
    in the store is passed over. *)
Fixpoint walk (fuel : nat) (stack seen : list plumbing.Hash) : list object.Commit :=
  match fuel with
  | O => []
  | S fuel' =>
      match stack with
      | [] => []
      | h :: stack' =>
          if decide (h ∈ seen) then walk fuel' stack' seen
          else
            match commit_of h with
            | None => walk fuel' stack' seen
            | Some c => c :: walk fuel' (object.ParentHashes c ++ stack') (h :: seen)
            end
      end
  end.

(** The parent edges that leave the commits not yet seen. *)
Definition pending (cs : list object.Commit) (seen : list plumbing.Hash) : nat :=
  sum_list ((fun c => length (object.ParentHashes c))
              <$> filter (fun c => object.Hash c ∉ seen) cs).

(** Steps that are enough for a walk from one commit: one for the start and
    one for each parent edge. *)
Definition walk_fuel : nat := S (pending (commits s) []).

(** The commits reachable from [h], each once, in the order of the walk. *)
Definition history (h : plumbing.Hash) : list object.Commit :=
  walk walk_fuel [h] [].

(** Modelled from the spec: go-git's [Repository.Log] with [From] and
    [Since]; "traverse commit history starting at headCommit, visiting every
    commit whose timestamp is at or after the selected ancestor's author
    timestamp".  The timestamp of a commit is the one of its committer, as
    for [git log --since]. *)
Definition Log (o : git.LogOptions) : result object.CommitIter :=
  match commit_of (git.From o) with
  | None => Err ErrObjectNotFound
  | Some _ =>
      let visited :=
        match git.Since o with
        | None => history (git.From o)
        | Some since =>
            filter (fun c => since <= object.When (object.Committer c))
                   (history (git.From o))
        end in
      Ok {| object.Commits := visited; object.IterErr := None |}
  end.

(** [a] is [b] or one of its ancestors. *)
Definition is_ancestor (a b : object.Commit) : bool :=
  bool_decide (object.Hash a ∈ object.Hash <$> history (object.Hash b)).

(** Modelled from the spec: go-git's [Commit.MergeBase]; "a commit is a
    common ancestor if reachable by following parent edges from both
    inputs", of which the merge-bases are "the most recent commit(s)": the
    common ancestors that are not an ancestor of another one.  When one
    input is an ancestor of the other, it is the merge-base ("the ancestor
    must equal the target commit itself"). *)
Definition MergeBase (a b : object.Commit) : result (list object.Commit) :=
  if is_ancestor b a then Ok [b]
  else if is_ancestor a b then Ok [a]
  else
    let common := filter (fun c => is_ancestor c b) (history (object.Hash a)) in
    Ok (filter (fun c => forallb (fun d => bool_decide (object.Hash d = object.Hash c)
                                          || negb (is_ancestor c d)) common)
               common).

(** Modelled from the spec: go-git's [Commit.Tree]; "retrieve the tree
    snapshot [...]; fail [...] if either commit lacks a materializable
    tree". *)
Definition Tree (c : object.Commit) : result object.Tree :=
  from_option ErrObjectNotFound (lookup_by object.TreeId (trees s) (object.TreeHash c)).

End Operations.

(** The length of a longest common subsequence of two files' lines. *)
Fixpoint lcs (a b : list string) : nat :=
  match a with
  | [] => O
  | x :: a' =>
      (fix scan (b : list string) : nat :=
         match b with
         | [] => O
         | y :: b' =>
             if decide (x = y) then S (lcs a' b')
             else Nat.max (lcs a' b) (scan b')
         end) b
  end.

Definition lines_of (b : option object.Blob) : option (list string) :=
  match b with
  | None => Some []
  | Some (object.Text l) => Some l
  | Some (object.Binary _) => None
  end.

(** Modelled from the spec: the entry of a patch for one path; "line-level
    diff stats per file, using a standard text-diff algorithm per file;
    binary files contribute 0/0 line counts but still count as a changed
    file".  A file that is the same on both sides has no entry. *)
Definition diff_file (from to : option object.Blob) : option (Z * Z) :=
  if decide (from = to) then None
  else
    match lines_of from, lines_of to with
    | Some l1, Some l2 =>
        let k := lcs l1 l2 in
        Some (Z.of_nat (length l2 - k), Z.of_nat (length l1 - k))
    | _, _ => Some (0, 0)
    end.

(** Modelled from the spec: go-git's [Tree.Patch] and [Patch.Stats];
    "compute a structural patch between the two trees (added/removed/modified
    file entries [...])".  [from.Patch(to)] describes how [from] becomes
    [to]: a line of [to] that [from] lacks is an addition. *)
Definition Patch (from to : object.Tree) : result object.Patch :=
  Ok {| object.Stats :=
          (fun e : string * (Z * Z) =>
             {| object.FileName := e.1;
                object.Addition := e.2.1;
                object.Deletion := e.2.2 |})
          <$> map_to_list (merge diff_file (object.Files from) (object.Files to)) |}.

(** The repository a store is read through. *)
Definition open (s : Store) : git.Repository :=
  {| git.Branch := Branch s;
     git.ResolveRevision := ResolveRevision s;
     git.CommitObject := CommitObject s;
     git.Head := Head s;
     git.Remote := Remote s;
     git.Log := Log s;
     git.MergeBase := MergeBase s;
     git.Tree := Tree s;
     git.Patch := Patch |}.

End Model.

(** ** Repositories used as examples *)

Module Scenario.

Definition signature (email : string) (when : object.Time) : object.Signature :=
  {| object.Name := email; object.Email := email; object.When := when |}.

Definition commit (h : plumbing.Hash) (author committer : object.Signature)
    (tree : plumbing.Hash) (parents : list plumbing.Hash) : object.Commit :=
  {| object.Hash := h;
     object.Author := author;
     object.Committer := committer;
     object.Message := h;
     object.TreeHash := tree;
     object.ParentHashes := parents |}.

(** The history C1 (root) -> C2 (adds [a.txt] with three lines) -> C3 (changes
    one line of [a.txt]); the branch [main] points at C1 and HEAD at C3.  The
    signatures of the three commits are left open. *)
Section ThreeCommits.

Context (a1 c1 a2 c2 a3 c3 : object.Signature).

Definition C1 : object.Commit := commit "c1" a1 c1 "t1" [].
Definition C2 : object.Commit := commit "c2" a2 c2 "t2" ["c1"].
Definition C3 : object.Commit := commit "c3" a3 c3 "t3" ["c2"].

Definition T1 : object.Tree :=
  {| object.TreeId := "t1"; object.Files := ∅ |}.
Definition T2 : object.Tree :=
  {| object.TreeId := "t2";
     object.Files := {[ "a.txt" := object.Text ["one"; "two"; "three"] ]} |}.
Definition T3 : object.Tree :=
  {| object.TreeId := "t3";
     object.Files := {[ "a.txt" := object.Text ["one"; "2"; "three"] ]} |}.

Definition three_commits : Model.Store :=
  {| Model.commits := [C1; C2; C3];
     Model.trees := [T1; T2; T3];
     Model.branches :=
       [{| config.Name := "main"; config.Remote := "origin";
           config.Merge := "refs/heads/main" |}];
     Model.references :=
       [{| plumbing.Name := "refs/heads/main"; plumbing.RefHash := "c1" |}];
     Model.HEAD := Some {| plumbing.Name := "HEAD"; plumbing.RefHash := "c3" |};
     Model.remotes :=
       [{| config.RemoteName := "origin";
           config.URLs := ["https://example.org/project.git"] |}] |}.

End ThreeCommits.

Definition ann : object.Signature := signature "ann@example.org" 100.
Definition bob : object.Signature := signature "bob@example.org" 200.
Definition cat : object.Signature := signature "cat@example.org" 300.

(** The three commits, each written and committed by its own person. *)
Definition project : Model.Store := three_commits ann ann bob bob cat cat.
Definition P1 : object.Commit := C1 ann ann.
Definition P2 : object.Commit := C2 bob bob.
Definition P3 : object.Commit := C3 cat cat.

(** A repository with the single commit C1; the branch and HEAD point at it. *)
Definition single_commit : Model.Store :=
  {| Model.commits := [C1 ann ann];
     Model.trees := [T1];
     Model.branches := Model.branches project;
     Model.references := Model.references project;
     Model.HEAD := Some {| plumbing.Name := "HEAD"; plumbing.RefHash := "c1" |};
     Model.remotes := Model.remotes project |}.

(** A repository with a single commit whose committer's clock was behind its
    author's: the commit is older than its own author timestamp. *)
Definition K : object.Commit :=
  commit "k" (signature "ann@example.org" 200) (signature "ann@example.org" 100) "t1" [].

Definition skewed : Model.Store :=
  {| Model.commits := [K];
     Model.trees := [T1];
     Model.branches := Model.branches project;
     Model.references :=
       [{| plumbing.Name := "refs/heads/main"; plumbing.RefHash := "k" |}];
     Model.HEAD := Some {| plumbing.Name := "HEAD"; plumbing.RefHash := "k" |};
     Model.remotes := Model.remotes project |}.

(** Two histories without a common commit: R1 and R2 are both roots. *)
Definition R1 : object.Commit := commit "r1" ann ann "t1" [].
Definition R2 : object.Commit := commit "r2" bob bob "t1" [].

Definition unrelated : Model.Store :=
  {| Model.commits := [R1; R2];
     Model.trees := [T1];
     Model.branches := Model.branches project;
     Model.references :=
       [{| plumbing.Name := "refs/heads/main"; plumbing.RefHash := "r2" |}];
     Model.HEAD := Some {| plumbing.Name := "HEAD"; plumbing.RefHash := "r1" |};
     Model.remotes := Model.remotes project |}.

(** A checkout whose history is cut short: the search for a common ancestor
    runs into a commit that was not fetched. *)
Definition shallow (r : git.Repository) : git.Repository :=
  {| git.Branch := git.Branch r;
     git.ResolveRevision := git.ResolveRevision r;
     git.CommitObject := git.CommitObject r;
     git.Head := git.Head r;
     git.Remote := git.Remote r;
     git.Log := git.Log r;
     git.MergeBase := fun _ _ => Err Model.ErrObjectNotFound;
     git.Tree := git.Tree r;
     git.Patch := git.Patch r |}.

(** A host with one checkout, at [/work], and the given environment. *)
Definition checkout (r : git.Repository) (env : list (string * string)) : Host :=
  {| PlainOpen := fun path =>
       if decide (path = "/work") then Ok r
       else Err (errors.New "repository does not exist");
     Getenv := fun name => default "" (snd <$> Model.lookup_by fst env name);
     NewHash := fun hex => hex |}.

(** A repository whose patches list the given entries. *)
Definition with_stats (r : git.Repository) (stats : list object.FileStat)
    : git.Repository :=
  {| git.Branch := git.Branch r;
     git.ResolveRevision := git.ResolveRevision r;
     git.CommitObject := git.CommitObject r;
     git.Head := git.Head r;
     git.Remote := git.Remote r;
     git.Log := git.Log r;
     git.MergeBase := git.MergeBase r;
     git.Tree := git.Tree r;
     git.Patch := fun _ _ => Ok {| object.Stats := stats |} |}.

Definition stat_a : object.FileStat :=
  {| object.FileName := "a.txt"; object.Addition := 3; object.Deletion := 1 |}.
Definition stat_b : object.FileStat :=
  {| object.FileName := "b.bin"; object.Addition := 0; object.Deletion := 0 |}.
Definition stat_c : object.FileStat :=
  {| object.FileName := "c.txt"; object.Addition := 2; object.Deletion := 5 |}.

(** A repository whose walks yield the given commits and end as given. *)
Definition with_log (r : git.Repository) (it : object.CommitIter) : git.Repository :=
  {| git.Branch := git.Branch r;
     git.ResolveRevision := git.ResolveRevision r;
     git.CommitObject := git.CommitObject r;
     git.Head := git.Head r;
     git.Remote := git.Remote r;
     git.Log := fun _ => Ok it;
     git.MergeBase := git.MergeBase r;
     git.Tree := git.Tree r;
     git.Patch := git.Patch r |}.

Definition work : GitScm := {| repositoryPath := "/work" |}.
Definition elsewhere : GitScm := {| repositoryPath := "/tmp" |}.

Definition local_env : list (string * string) := [("TARGET_BRANCH", "main")].
Definition github_env : list (string * string) :=
  [("GITHUB_SHA", "c3"); ("GITHUB_BASE_REF", "main")].

End Scenario.

(** ** Definitions used to state the properties *)

(** The attributes a contribution hands to the orchestrator: those of a run
    that returned no error. *)
Definition kept (r : list attribute.KeyValue * errors.error) : list attribute.KeyValue :=
  match r with
  | (attrs, None) => attrs
  | (_, Some _) => []
  end.

Definition keys (attrs : list attribute.KeyValue) : list string :=
  attribute.Key <$> attrs.

(** The strings emitted under a list-valued key, as a set. *)
Definition strings_under (key : string) (attrs : list attribute.KeyValue) : gset string :=
  ⋃ ((fun kv =>
        match attribute.Val kv with
        | attribute.STRINGSLICE l =>
            if decide (attribute.Key kv = key) then list_to_set l else ∅
        | _ => ∅
        end) <$> attrs).

(** The e-mail addresses of the [who] (author or committer) of some commits. *)
Definition emails (who : object.Commit -> object.Signature)
    (cs : list object.Commit) : gset string :=
  list_to_set ((fun c => object.Email (who c)) <$> cs).

(** The maps [contributeCommitters] holds after its loop over the commits. *)
Definition collected (it : object.CommitIter) : gmap string bool * gmap string bool :=
  (object.ForEach it record_emails (∅, ∅)).1.

(** What is emitted for a collected map under [key]. *)
Definition emitted (key : string) (order : RangeOrder) (m : gmap string bool)
    : list attribute.KeyValue :=
  if decide (0 < size m)%nat
  then [attribute.StringSlice key (mapToArray order m)]
  else [].

(** Two list-valued attributes with the same key and the same strings, in
    any order. *)
Definition same_up_to_order (kv kv' : attribute.KeyValue) : Prop :=
  attribute.Key kv = attribute.Key kv'
  ∧ ∃ l l', attribute.Val kv = attribute.STRINGSLICE l
            ∧ attribute.Val kv' = attribute.STRINGSLICE l'
            ∧ l ≡ₚ l'.

(** The sum of a count over the entries of a patch. *)
Definition total (count : object.FileStat -> Z) (stats : list object.FileStat) : Z :=
  foldr (fun fileStat acc => count fileStat + acc) 0 stats.

(** The same repository, with another answer to [Head]. *)
Definition with_Head (r : git.Repository) (head : result plumbing.Reference)
    : git.Repository :=
  {| git.Branch := git.Branch r;
     git.ResolveRevision := git.ResolveRevision r;
     git.CommitObject := git.CommitObject r;
     git.Head := head;
     git.Remote := git.Remote r;
     git.Log := git.Log r;
     git.MergeBase := git.MergeBase r;
     git.Tree := git.Tree r;
     git.Patch := git.Patch r |}.

(** *** Reachability in the commit graph *)

(** The commit [d] is reached from the hash [h] by following parent edges
    through commits of the store whose hash is not in [avoid]. *)
Inductive reaches_avoiding (s : Model.Store) (avoid : list plumbing.Hash)
    : plumbing.Hash -> object.Commit -> Prop :=
| reaches_here h c :
    h ∉ avoid -> Model.commit_of s h = Some c -> reaches_avoiding s avoid h c
| reaches_parent h c p d :
    h ∉ avoid -> Model.commit_of s h = Some c -> p ∈ object.ParentHashes c ->
    reaches_avoiding s avoid p d -> reaches_avoiding s avoid h d.

(** [d] is the commit [h] names or one of its ancestors. *)
Definition reaches (s : Model.Store) : plumbing.Hash -> object.Commit -> Prop :=
  reaches_avoiding s [].

(** *** The contract of the revision resolver (section 4.1) *)

Inductive ResolveError : Type :=
| UnknownTargetBranch
| UnresolvableTargetRef
| MissingTargetCommit
| NoHeadRef
| MissingHeadCommit.

(** Target resolution, in the words of the specification: the branch
    configuration by name, its merge reference resolved to a revision, the
    commit object loaded. *)
Definition resolve_target (repository : git.Repository) (targetBranchName : string)
    : ResolveError + object.Commit :=
  match git.Branch repository targetBranchName with
  | Err _ => inl UnknownTargetBranch
  | Ok branch =>
      match git.ResolveRevision repository (config.Merge branch) with
      | Err _ => inl UnresolvableTargetRef
      | Ok revision =>
          match git.CommitObject repository revision with
          | Err _ => inl MissingTargetCommit
          | Ok targetCommit => inr targetCommit
          end
      end
  end.

(** Head resolution, in the words of the specification: an explicit revision
    is parsed as a hash, otherwise the HEAD pointer is read; then the commit
    object is loaded. *)
Definition resolve_head (host : Host) (repository : git.Repository)
    (optionalHeadRevision : string) : ResolveError + object.Commit :=
  let hash : ResolveError + plumbing.Hash :=
    if decide (optionalHeadRevision = "") then
      match git.Head repository with
      | Err _ => inl NoHeadRef
      | Ok head => inr (plumbing.RefHash head)
      end
    else inr (NewHash host optionalHeadRevision) in
  match hash with
  | inl e => inl e
  | inr h =>
      match git.CommitObject repository h with
      | Err _ => inl MissingHeadCommit
      | Ok headCommit => inr headCommit
      end
  end.

(** [resolve(handle, targetBranchName, optionalHeadRevision)]: both
    endpoints, or the first failure, the target first. *)
Definition resolve (host : Host) (repository : git.Repository)
    (targetBranchName optionalHeadRevision : string)
    : ResolveError + object.Commit * object.Commit :=
  match resolve_target repository targetBranchName with
  | inl e => inl e
  | inr targetCommit =>
      match resolve_head host repository optionalHeadRevision with
      | inl e => inl e
      | inr headCommit => inr (headCommit, targetCommit)
      end
  end.

(** The message [calculateCommits] gives to each kind of failure. *)
Definition diagnostic (kind : ResolveError) (targetBranchName : string)
    (cause : errors.error_value) : string :=
  match kind with
  | UnknownTargetBranch =>
      errors.Sprintf "not able to retrieve the %s TARGET_BRANCH: %v"
        [targetBranchName; errors.Error cause]
  | UnresolvableTargetRef =>
      errors.Sprintf "not able to retrieve ref from TARGET_BRANCH: %v" [errors.Error cause]
  | MissingTargetCommit =>
      errors.Sprintf "not able to retrieve commit from TARGET_BRANCH: %v" [errors.Error cause]
  | NoHeadRef =>
      errors.Sprintf "not able to retrieve ref from HEAD: %v" [errors.Error cause]
  | MissingHeadCommit =>
      errors.Sprintf "not able to retrieve commit from HEAD: %v" [errors.Error cause]
  end.

(** *** The stages of a pass *)

(** The attributes a pass holds once the repository is open: the type, and
    the provider when one was recognised. *)
Definition opened (host : Host) : list attribute.KeyValue :=
  [attribute.String ScmType "git"]
  ++ (if decide ((checkGitProvider host).2 ≠ "")
      then [attribute.String ScmProvider (checkGitProvider host).2]
      else []).

(** What a pass returns, by the stage that fails first and, once the two
    commits are resolved, by the contributions that succeed. *)
Inductive returned (host : Host) (oa oc : RangeOrder) (scm : GitScm)
    : list attribute.KeyValue -> Prop :=
| returned_not_opened e :
    PlainOpen host (repositoryPath scm) = Err e ->
    returned host oa oc scm []
| returned_without_remote repository e :
    PlainOpen host (repositoryPath scm) = Ok repository ->
    git.Remote repository "origin" = Err e ->
    returned host oa oc scm (opened host)
| returned_without_head repository origin e :
    PlainOpen host (repositoryPath scm) = Ok repository ->
    git.Remote repository "origin" = Ok origin ->
    git.Head repository = Err e ->
    returned host oa oc scm
      (opened host ++ [attribute.StringSlice ScmRepository (config.URLs origin)])
| returned_unresolved repository origin branch e :
    PlainOpen host (repositoryPath scm) = Ok repository ->
    git.Remote repository "origin" = Ok origin ->
    git.Head repository = Ok branch ->
    calculateCommits host repository (checkGitProvider host).1.1 (checkGitProvider host).1.2
      = (None, None, Some e) ->
    returned host oa oc scm
      (opened host
       ++ [attribute.StringSlice ScmRepository (config.URLs origin);
           attribute.String ScmBranch (plumbing.Name branch)])
| returned_contributions repository origin branch headCommit targetCommit :
    PlainOpen host (repositoryPath scm) = Ok repository ->
    git.Remote repository "origin" = Ok origin ->
    git.Head repository = Ok branch ->
    calculateCommits host repository (checkGitProvider host).1.1 (checkGitProvider host).1.2
      = (Some headCommit, Some targetCommit, None) ->
    returned host oa oc scm
      (opened host
       ++ [attribute.StringSlice ScmRepository (config.URLs origin);
           attribute.String ScmBranch (plumbing.Name branch)]
       ++ kept (contributeCommitters oa oc repository headCommit targetCommit)
       ++ kept (contributeFilesAndLines repository headCommit targetCommit)).

(** *** The keys of a pass *)

(** The keys a pass can emit, in the order in which it emits them. *)
Definition all_keys : list string :=
  [ScmType; ScmProvider; ScmRepository; ScmBranch; ScmAuthors; ScmCommitters;
   GitAdditions; GitDeletions; GitModifiedFiles].

(** The keys that follow the type and the provider: the remote ([remote]),
    the branch ([branch]), the two lists of e-mails ([people]) and the three
    counts ([counts]). *)
Definition later_keys (remote branch people counts : bool) : list string :=
  if remote then
    ScmRepository
    :: (if branch then
          ScmBranch
          :: (if people then [ScmAuthors; ScmCommitters] else [])
          ++ (if counts then [GitAdditions; GitDeletions; GitModifiedFiles] else [])
        else [])
  else [].

(** An attribute that is the same in two passes, or one of the two lists of
    e-mail addresses, which may differ by the order of its strings and by
    nothing else. *)
Definition same_attribute (kv kv' : attribute.KeyValue) : Prop :=
  kv = kv'
  ∨ ((attribute.Key kv = ScmAuthors ∨ attribute.Key kv = ScmCommitters)
     ∧ same_up_to_order kv kv').

(** ** Maps and the order of their keys *)

Lemma snoc_all {A : Type} (l acc : list A) :
  fold_left (fun array k => array ++ [k]) l acc = acc ++ l.
Proof.
  revert acc. induction l as [|x l IH]; intros acc; simpl.
  - by rewrite app_nil_r.
  - rewrite IH. by rewrite <- app_assoc.
Qed.

Lemma mapToArray_order (order : RangeOrder) (m : gmap string bool) :
  mapToArray order m = order (map_to_list m).*1.
Proof. unfold mapToArray. by rewrite snoc_all. Qed.

Lemma mapToArray_perm (order : RangeOrder) (m : gmap string bool) :
  mapToArray order m ≡ₚ (map_to_list m).*1.
Proof. rewrite mapToArray_order. apply range_keys_perm. Qed.

Lemma mapToArray_elem_of (order : RangeOrder) (m : gmap string bool) (k : string) :
  k ∈ mapToArray order m ↔ k ∈ dom m.
Proof.
  rewrite mapToArray_perm, elem_of_dom. split.
  - intros [[k' v] [-> Hin]]%list_elem_of_fmap. apply elem_of_map_to_list in Hin. eauto.
  - intros [v Hv]. apply list_elem_of_fmap. exists (k, v). split; [done|].
    by apply elem_of_map_to_list.
Qed.

Lemma mapToArray_NoDup (order : RangeOrder) (m : gmap string bool) :
  NoDup (mapToArray order m).
Proof. rewrite mapToArray_perm. apply NoDup_fst_map_to_list. Qed.

Lemma mapToArray_set (order : RangeOrder) (m : gmap string bool) :
  list_to_set (mapToArray order m) =@{gset string} dom m.
Proof.
  apply set_eq. intros k. rewrite elem_of_list_to_set. apply mapToArray_elem_of.
Qed.

Lemma size_pos_dom (m : gmap string bool) : (0 < size m)%nat ↔ dom m ≠ ∅.
Proof.
  rewrite <- size_dom. split.
  - intros H Hd. rewrite Hd, size_empty in H. lia.
  - intros H. destruct (decide (size (dom m) = 0%nat)) as [E|E]; [|lia].
    apply size_empty_inv in E. exfalso. apply H. by apply leibniz_equiv.
Qed.

(** ** The loop over the commits *)

Lemma ForEach_record_emails (cs : list object.Commit) (last : errors.error)
    (a c : gmap string bool) :
  object.ForEach_from cs record_emails (a, c) last
  = (foldl (fun m x => <[object.Email (object.Author x) := true]> m) a cs,
     foldl (fun m x => <[object.Email (object.Committer x) := true]> m) c cs,
     last).
Proof.
  revert a c. induction cs as [|x cs IH]; intros a c; simpl; [done|].
  by rewrite IH.
Qed.

Lemma dom_foldl_insert (who : object.Commit -> object.Signature)
    (cs : list object.Commit) (m : gmap string bool) :
  dom (foldl (fun m x => <[object.Email (who x) := true]> m) m cs)
  = dom m ∪ emails who cs.
Proof.
  revert m. induction cs as [|x cs IH]; intros m; simpl.
  - unfold emails. simpl. set_solver.
  - rewrite IH, dom_insert_L. unfold emails. simpl. set_solver.
Qed.

Lemma collected_authors (it : object.CommitIter) :
  dom (collected it).1 = emails object.Author (object.Commits it).
Proof.
  unfold collected, object.ForEach. rewrite ForEach_record_emails. simpl.
  rewrite dom_foldl_insert. set_solver.
Qed.

Lemma collected_committers (it : object.CommitIter) :
  dom (collected it).2 = emails object.Committer (object.Commits it).
Proof.
  unfold collected, object.ForEach. rewrite ForEach_record_emails. simpl.
  rewrite dom_foldl_insert. set_solver.
Qed.

Lemma emails_empty_iff (who : object.Commit -> object.Signature)
    (cs : list object.Commit) :
  emails who cs = ∅ ↔ cs = [].
Proof.
  unfold emails. destruct cs as [|c cs]; simpl; [done|].
  split; [|done]. intros H. exfalso.
  assert (object.Email (who c) ∈@{gset string} ∅) as Hin by (rewrite <- H; set_solver).
  set_solver.
Qed.

(** ** [contributeCommitters], case by case *)

Lemma contributeCommitters_merge_base_error (oa oc : RangeOrder)
    (repository : git.Repository) (headCommit targetCommit : object.Commit)
    (e : errors.error_value) :
  git.MergeBase repository headCommit targetCommit = Err e ->
  ∃ e', contributeCommitters oa oc repository headCommit targetCommit = ([], Some e').
Proof. intros H. unfold contributeCommitters. rewrite H. simpl. eauto. Qed.

Lemma contributeCommitters_log_error (oa oc : RangeOrder)
    (repository : git.Repository) (headCommit targetCommit ancestor : object.Commit)
    (others : list object.Commit) (e : errors.error_value) :
  git.MergeBase repository headCommit targetCommit = Ok (ancestor :: others) ->
  git.Log repository
    {| git.From := object.Hash headCommit;
       git.Since := Some (object.When (object.Author ancestor)) |} = Err e ->
  ∃ e', contributeCommitters oa oc repository headCommit targetCommit = ([], Some e').
Proof. intros H1 H2. unfold contributeCommitters. rewrite H1, H2. simpl. eauto. Qed.

Lemma contributeCommitters_walked (oa oc : RangeOrder)
    (repository : git.Repository) (headCommit targetCommit ancestor : object.Commit)
    (others : list object.Commit) (it : object.CommitIter) :
  git.MergeBase repository headCommit targetCommit = Ok (ancestor :: others) ->
  git.Log repository
    {| git.From := object.Hash headCommit;
       git.Since := Some (object.When (object.Author ancestor)) |} = Ok it ->
  contributeCommitters oa oc repository headCommit targetCommit
  = (emitted ScmAuthors oa (collected it).1 ++ emitted ScmCommitters oc (collected it).2,
     None).
Proof.
  intros H1 H2. unfold contributeCommitters. rewrite H1, H2.
  unfold collected, emitted.
  destruct (object.ForEach it record_emails (∅, ∅)) as [[authors committers] e].
  simpl. by repeat case_decide.
Qed.

(** ** What is emitted for a collected map *)

Lemma strings_under_app (key : string) (l1 l2 : list attribute.KeyValue) :
  strings_under key (l1 ++ l2) = strings_under key l1 ∪ strings_under key l2.
Proof.
  unfold strings_under. rewrite fmap_app.
  apply leibniz_equiv. apply union_list_app.
Qed.

Lemma strings_under_emitted (key : string) (order : RangeOrder) (m : gmap string bool) :
  strings_under key (emitted key order m) = dom m.
Proof.
  unfold emitted, strings_under. case_decide as Hs; simpl.
  - rewrite decide_True by done. rewrite mapToArray_set. set_solver.
  - destruct (decide (dom m = ∅)) as [->|Hd]; [done|].
    apply size_pos_dom in Hd. lia.
Qed.

Lemma strings_under_other (key key' : string) (order : RangeOrder)
    (m : gmap string bool) :
  key' ≠ key -> strings_under key (emitted key' order m) = ∅.
Proof.
  intros Hne. unfold emitted, strings_under. case_decide; simpl; [|done].
  rewrite decide_False by done. set_solver.
Qed.

Lemma keys_emitted (key : string) (order : RangeOrder) (m : gmap string bool) :
  keys (emitted key order m) = if decide (dom m = ∅) then [] else [key].
Proof.
  unfold emitted, keys. case_decide as Hs; case_decide as Hd; simpl; try done.
  - apply size_pos_dom in Hs. done.
  - apply size_pos_dom in Hd. lia.
Qed.

Lemma emitted_up_to_order (key : string) (order order' : RangeOrder)
    (m : gmap string bool) :
  Forall2 same_up_to_order (emitted key order m) (emitted key order' m).
Proof.
  unfold emitted. case_decide; constructor; [|constructor].
  split; [done|]. eexists _, _. split; [done|]. split; [done|].
  by rewrite !mapToArray_perm.
Qed.

Lemma authors_and_committers_distinct : ScmAuthors ≠ ScmCommitters.
Proof. discriminate. Qed.

(** The sets and the keys of the output of a walk, whatever the order of the
    two [range] loops. *)
Lemma emitted_sets (oa oc : RangeOrder) (authors committers : gmap string bool) :
  let attrs := emitted ScmAuthors oa authors ++ emitted ScmCommitters oc committers in
  strings_under ScmAuthors attrs = dom authors
  ∧ strings_under ScmCommitters attrs = dom committers
  ∧ (ScmAuthors ∈ keys attrs ↔ dom authors ≠ ∅)
  ∧ (ScmCommitters ∈ keys attrs ↔ dom committers ≠ ∅).
Proof.
  simpl. rewrite !strings_under_app, !strings_under_emitted.
  rewrite (strings_under_other ScmAuthors ScmCommitters) by discriminate.
  rewrite (strings_under_other ScmCommitters ScmAuthors) by discriminate.
  unfold keys. rewrite fmap_app. fold (keys (emitted ScmAuthors oa authors)).
  fold (keys (emitted ScmCommitters oc committers)). rewrite !keys_emitted.
  split; [set_solver|]. split; [set_solver|].
  split; rewrite elem_of_app; repeat case_decide;
    rewrite ?list_elem_of_singleton, ?elem_of_nil; split; intros Hk;
    try done; try (by left); try (by right); destruct Hk as [Hk|Hk]; done.
Qed.

(** ** Properties of [contributeCommitters] *)

Lemma contributeCommitters_sets (oa oc : RangeOrder) (repository : git.Repository)
    (headCommit targetCommit ancestor : object.Commit)
    (others : list object.Commit) (it : object.CommitIter) :
  git.MergeBase repository headCommit targetCommit = Ok (ancestor :: others) ->
  git.Log repository
    {| git.From := object.Hash headCommit;
       git.Since := Some (object.When (object.Author ancestor)) |} = Ok it ->
  (contributeCommitters oa oc repository headCommit targetCommit).2 = None
  ∧ strings_under ScmAuthors
      (contributeCommitters oa oc repository headCommit targetCommit).1
    = dom (collected it).1
  ∧ strings_under ScmCommitters
      (contributeCommitters oa oc repository headCommit targetCommit).1
    = dom (collected it).2
  ∧ (ScmAuthors ∈ keys (contributeCommitters oa oc repository headCommit targetCommit).1
     ↔ dom (collected it).1 ≠ ∅)
  ∧ (ScmCommitters ∈ keys (contributeCommitters oa oc repository headCommit targetCommit).1
     ↔ dom (collected it).2 ≠ ∅).
Proof.
  intros Hmb Hlog.
  rewrite (contributeCommitters_walked _ _ _ _ _ _ _ _ Hmb Hlog). simpl.
  destruct (emitted_sets oa oc (collected it).1 (collected it).2) as (Ha & Hc & Hka & Hkc).
  auto.
Qed.

(** C7.  Empty-set suppression.  When [contributeCommitters] reaches its
    aggregation (a common ancestor was found and the walk was opened), it
    returns no error whatever the collected sets are, and each of the keys
    [scm-authors] and [scm-committers] is in its output exactly when the
    corresponding collected set is not empty; the strings emitted under a key
    are the collected set. *)
Theorem empty_set_suppression (oa oc : RangeOrder) (repository : git.Repository)
    (headCommit targetCommit ancestor : object.Commit)
    (others : list object.Commit) (it : object.CommitIter) :
  git.MergeBase repository headCommit targetCommit = Ok (ancestor :: others) ->
  git.Log repository
    {| git.From := object.Hash headCommit;
       git.Since := Some (object.When (object.Author ancestor)) |} = Ok it ->
  let out := contributeCommitters oa oc repository headCommit targetCommit in
  out.2 = None
  ∧ (ScmAuthors ∈ keys out.1 ↔ dom (collected it).1 ≠ ∅)
  ∧ (ScmCommitters ∈ keys out.1 ↔ dom (collected it).2 ≠ ∅)
  ∧ strings_under ScmAuthors out.1 = dom (collected it).1
  ∧ strings_under ScmCommitters out.1 = dom (collected it).2.
Proof.
  intros Hmb Hlog. simpl.
  destruct (contributeCommitters_sets oa oc _ _ _ _ _ _ Hmb Hlog)
    as (He & Ha & Hc & Hka & Hkc).
  auto.
Qed.

(** C2.  When the set of common ancestors is empty, [contributeCommitters]
    returns no attribute and a nil error: [errors.Wrapf] is given the nil
    error of the successful call to [MergeBase], and returns nil. *)
Theorem no_common_ancestor_returns_nil (oa oc : RangeOrder)
    (repository : git.Repository) (headCommit targetCommit : object.Commit) :
  git.MergeBase repository headCommit targetCommit = Ok [] ->
  contributeCommitters oa oc repository headCommit targetCommit = ([], None).
Proof. intros H. unfold contributeCommitters. by rewrite H. Qed.

(** C9.  Two runs of [contributeCommitters] on the same repository and the
    same two commits, whatever the order in which each run ranges over its
    maps, return the same error, the same keys and, under each key, the same
    set of e-mail addresses (the lists are equal up to their order). *)
Theorem committers_runs_agree (oa oc oa' oc' : RangeOrder)
    (repository : git.Repository) (headCommit targetCommit : object.Commit) :
  let first := contributeCommitters oa oc repository headCommit targetCommit in
  let second := contributeCommitters oa' oc' repository headCommit targetCommit in
  first.2 = second.2
  ∧ keys first.1 = keys second.1
  ∧ strings_under ScmAuthors first.1 = strings_under ScmAuthors second.1
  ∧ strings_under ScmCommitters first.1 = strings_under ScmCommitters second.1
  ∧ Forall2 same_up_to_order first.1 second.1.
Proof.
  simpl.
  destruct (git.MergeBase repository headCommit targetCommit) as [[|ancestor others]|e] eqn:Hmb.
  - unfold contributeCommitters. rewrite Hmb. simpl. auto.
  - destruct (git.Log repository
                {| git.From := object.Hash headCommit;
                   git.Since := Some (object.When (object.Author ancestor)) |})
      as [it|e] eqn:Hlog.
    + rewrite !(contributeCommitters_walked _ _ _ _ _ _ _ _ Hmb Hlog). simpl.
      destruct (emitted_sets oa oc (collected it).1 (collected it).2) as (Ha & Hc & _).
      destruct (emitted_sets oa' oc' (collected it).1 (collected it).2) as (Ha' & Hc' & _).
      simpl in *. rewrite Ha, Ha', Hc, Hc'.
      split; [done|]. split.
      { unfold keys. rewrite !fmap_app.
        change (keys (emitted ScmAuthors oa (collected it).1)
                ++ keys (emitted ScmCommitters oc (collected it).2)
                = keys (emitted ScmAuthors oa' (collected it).1)
                  ++ keys (emitted ScmCommitters oc' (collected it).2)).
        by rewrite !keys_emitted. }
      split; [done|]. split; [done|].
      apply Forall2_app; apply emitted_up_to_order.
    + unfold contributeCommitters. rewrite Hmb, Hlog. simpl. auto.
  - unfold contributeCommitters. rewrite Hmb. simpl. auto.
Qed.

(** ** The revision resolver *)

Lemma calculateCommits_shape (host : Host) (repository : git.Repository)
    (headSha targetBranchEnv : string) :
  (∃ e, calculateCommits host repository headSha targetBranchEnv = (None, None, Some e))
  ∨ (∃ headCommit targetCommit,
       calculateCommits host repository headSha targetBranchEnv
       = (Some headCommit, Some targetCommit, None)).
Proof.
  unfold calculateCommits.
  destruct (git.Branch repository targetBranchEnv) as [b|e]; [|simpl; eauto].
  destruct (git.ResolveRevision repository (config.Merge b)) as [r|e]; [|simpl; eauto].
  destruct (git.CommitObject repository r) as [t|e]; [|simpl; eauto].
  case_decide.
  - destruct (git.Head repository) as [hr|e]; [|simpl; eauto].
    destruct (git.CommitObject repository (plumbing.RefHash hr)); simpl; eauto.
  - destruct (git.CommitObject repository (NewHash host headSha)); simpl; eauto.
Qed.

(** C6.  [calculateCommits] meets the contract of the revision resolver:
    where the contract fails with a kind of error, [calculateCommits] returns
    no commit and the error of the library wrapped in the message of that
    kind; where the contract gives the two commits, it returns them with a
    nil error.  A head revision that is given is parsed as a hash and its
    commit loaded, and the HEAD pointer of the repository plays no part in
    the result; without one, the commit HEAD points at is loaded.  The
    repository is only read. *)
Theorem calculateCommits_meets_contract (host : Host) (repository : git.Repository)
    (headSha targetBranchEnv : string) :
  match resolve host repository targetBranchEnv headSha with
  | inl kind =>
      ∃ cause,
        calculateCommits host repository headSha targetBranchEnv
        = (None, None,
           Some (errors.withMessage cause (diagnostic kind targetBranchEnv cause)))
  | inr (headCommit, targetCommit) =>
      calculateCommits host repository headSha targetBranchEnv
      = (Some headCommit, Some targetCommit, None)
      ∧ (headSha ≠ "" ->
         git.CommitObject repository (NewHash host headSha) = Ok headCommit)
      ∧ (headSha = "" ->
         ∃ head, git.Head repository = Ok head
                 ∧ git.CommitObject repository (plumbing.RefHash head) = Ok headCommit)
  end
  ∧ ∀ head, headSha ≠ "" ->
      calculateCommits host (with_Head repository head) headSha targetBranchEnv
      = calculateCommits host repository headSha targetBranchEnv.
Proof.
  split.
  - unfold resolve, resolve_target, resolve_head, calculateCommits.
    destruct (git.Branch repository targetBranchEnv) as [b|e]; [|simpl; eauto].
    destruct (git.ResolveRevision repository (config.Merge b)) as [r|e]; [|simpl; eauto].
    destruct (git.CommitObject repository r) as [t|e]; [|simpl; eauto].
    case_decide as Hsha.
    + destruct (git.Head repository) as [hr|e]; [|simpl; eauto].
      destruct (git.CommitObject repository (plumbing.RefHash hr)) eqn:E; simpl; eauto.
      split; [done|]. split; [done|]. eauto.
    + destruct (git.CommitObject repository (NewHash host headSha)) eqn:E; simpl; eauto.
      split; [done|]. split; [done|]. done.
  - intros head Hne. unfold calculateCommits, with_Head.
    cbn [git.Branch git.ResolveRevision git.CommitObject git.Head].
    by destruct (decide (headSha = "")).
Qed.

(** ** The orchestrator *)

Lemma contribute_kept (repository : git.Repository)
    (headCommit targetCommit : object.Commit)
    (gitAttributes : list attribute.KeyValue) (c : contribution) :
  contribute repository headCommit targetCommit gitAttributes c
  = gitAttributes ++ kept (c repository headCommit targetCommit).
Proof.
  unfold contribute, kept.
  destruct (c repository headCommit targetCommit) as [attrs [e|]]; [|done].
  by rewrite app_nil_r.
Qed.

Lemma returned_functional (host : Host) (oa oc : RangeOrder) (scm : GitScm)
    (attrs attrs' : list attribute.KeyValue) :
  returned host oa oc scm attrs -> returned host oa oc scm attrs' -> attrs = attrs'.
Proof.
  intros H H'. destruct H; destruct H'; congruence.
Qed.

(** C1, as amended.  [contributeAttributes] always returns a list, never an
    error.  When opening the repository, looking up the remote, reading HEAD
    or resolving the two commits fails, the list is the one accumulated
    before that stage.  Once the two commits are resolved, each of the two
    contributions that returns no error adds its attributes, the committers
    before the diffstat, and one that fails adds none: what was accumulated
    before stays as it was. *)
Theorem contributeAttributes_by_stage (host : Host) (oa oc : RangeOrder) (scm : GitScm) :
  ∃ attrs, contributeAttributes host oa oc scm = Some attrs
           ∧ returned host oa oc scm attrs
           ∧ ∀ attrs', returned host oa oc scm attrs' -> attrs' = attrs.
Proof.
  cut (∃ attrs, contributeAttributes host oa oc scm = Some attrs
                ∧ returned host oa oc scm attrs).
  { intros (attrs & He & Hr). exists attrs. split; [done|]. split; [done|].
    intros attrs' Hr'. by apply (returned_functional host oa oc scm). }
  unfold contributeAttributes, openLocalRepository.
  destruct (PlainOpen host (repositoryPath scm)) as [repository|e] eqn:Hopen.
  2:{ eexists. split; [done|]. by eapply returned_not_opened. }
  cbv zeta.
  replace (if decide ((checkGitProvider host).2 ≠ "")
           then [attribute.String ScmType "git"]
                ++ [attribute.String ScmProvider (checkGitProvider host).2]
           else [attribute.String ScmType "git"])
    with (opened host) by (unfold opened; by case_decide).
  destruct (git.Remote repository "origin") as [origin|e] eqn:Hremote.
  2:{ eexists. split; [done|]. by eapply returned_without_remote. }
  destruct (git.Head repository) as [branch|e] eqn:Hhead.
  2:{ eexists. split; [done|]. by eapply returned_without_head. }
  destruct (calculateCommits_shape host repository
              (checkGitProvider host).1.1 (checkGitProvider host).1.2)
    as [[e He]|(headCommit & targetCommit & Hc)].
  - rewrite He. eexists. split; [done|].
    rewrite <- app_assoc. by eapply returned_unresolved.
  - rewrite Hc. eexists. split; [done|]. cbn [fold_left].
    rewrite !contribute_kept, <- !app_assoc.
    by eapply returned_contributions.
Qed.

(** C10.  When the repository cannot be opened the pass returns the empty
    list; when it can, the list starts with the key [scm-type] and the
    string [git]. *)
Theorem scm_type_comes_first (host : Host) (oa oc : RangeOrder) (scm : GitScm) :
  match PlainOpen host (repositoryPath scm) with
  | Err _ => contributeAttributes host oa oc scm = Some []
  | Ok _ =>
      ∃ rest, contributeAttributes host oa oc scm
              = Some ({| attribute.Key := ScmType;
                         attribute.Val := attribute.STRING "git" |} :: rest)
  end.
Proof.
  unfold contributeAttributes, openLocalRepository.
  destruct (PlainOpen host (repositoryPath scm)) as [repository|e]; [|done].
  cbv zeta.
  destruct (git.Remote repository "origin") as [origin|e];
    [|case_decide; simpl; eauto].
  destruct (git.Head repository) as [branch|e];
    [|case_decide; simpl; eauto].
  destruct (calculateCommits_shape host repository
              (checkGitProvider host).1.1 (checkGitProvider host).1.2)
    as [[e ->]|(headCommit & targetCommit & ->)].
  - case_decide; simpl; eauto.
  - cbn [fold_left]. rewrite !contribute_kept. case_decide; simpl; eauto.
Qed.

(** ** The diffstat *)

Lemma wrap_in_range (z : Z) : int.InRange z -> int.wrap z = z.
Proof.
  unfold int.InRange, int.MinInt, int.MaxInt, int.wrap. intros H.
  rewrite Z.mod_small; lia.
Qed.

Lemma add_wrap_l (a b : Z) : int.add (int.wrap a) b = int.wrap (a + b).
Proof.
  unfold int.add, int.wrap. f_equal.
  replace ((a + 2 ^ 63) `mod` 2 ^ 64 - 2 ^ 63 + b + 2 ^ 63)
    with ((a + 2 ^ 63) `mod` 2 ^ 64 + b) by lia.
  rewrite Zplus_mod_idemp_l. f_equal. lia.
Qed.

Lemma total_perm (count : object.FileStat -> Z) (l l' : list object.FileStat) :
  l ≡ₚ l' -> total count l = total count l'.
Proof.
  unfold total.
  induction 1 as [|x l l' _ IH|x y l|l l' l'' _ IH1 _ IH2]; simpl; lia.
Qed.

Lemma loop_over_stats (stats : list object.FileStat) (files : list string) (a d : Z) :
  fold_left add_fileStat stats (files, int.wrap a, int.wrap d)
  = (files ++ (object.FileName <$> stats),
     int.wrap (a + total object.Addition stats),
     int.wrap (d + total object.Deletion stats)).
Proof.
  revert files a d. induction stats as [|x stats IH]; intros files a d; simpl.
  - by rewrite app_nil_r, !Z.add_0_r.
  - rewrite !add_wrap_l, IH, <- app_assoc. unfold total. simpl.
    rewrite !Z.add_assoc. done.
Qed.

Lemma contributeFilesAndLines_patch (repository : git.Repository)
    (headCommit targetCommit : object.Commit) (headTree targetTree : object.Tree)
    (patch : object.Patch) :
  git.Tree repository headCommit = Ok headTree ->
  git.Tree repository targetCommit = Ok targetTree ->
  git.Patch repository headTree targetTree = Ok patch ->
  contributeFilesAndLines repository headCommit targetCommit
  = ([attribute.Int GitAdditions (int.wrap (total object.Addition (object.Stats patch)));
      attribute.Int GitDeletions (int.wrap (total object.Deletion (object.Stats patch)));
      attribute.Int GitModifiedFiles (Z.of_nat (length (object.Stats patch)))],
     None).
Proof.
  intros H1 H2 H3. unfold contributeFilesAndLines. rewrite H1, H2, H3.
  change (@nil string, 0, 0) with (@nil string, int.wrap 0, int.wrap 0).
  rewrite loop_over_stats. simpl. by rewrite length_fmap.
Qed.

(** C8.  [contributeFilesAndLines] reduces the entries of the patch between
    the two trees: the number of files is the number of entries, the
    additions and the deletions are the sums of the entries' counts (in
    64-bit arithmetic: the sums themselves when they fit), and a repository
    that lists the same entries in another order gives the same three
    totals. *)
Theorem diffstat_is_commutative_reduction (repository repository' : git.Repository)
    (headCommit targetCommit : object.Commit)
    (headTree targetTree headTree' targetTree' : object.Tree)
    (patch patch' : object.Patch) :
  git.Tree repository headCommit = Ok headTree ->
  git.Tree repository targetCommit = Ok targetTree ->
  git.Patch repository headTree targetTree = Ok patch ->
  git.Tree repository' headCommit = Ok headTree' ->
  git.Tree repository' targetCommit = Ok targetTree' ->
  git.Patch repository' headTree' targetTree' = Ok patch' ->
  object.Stats patch ≡ₚ object.Stats patch' ->
  let additions := total object.Addition (object.Stats patch) in
  let deletions := total object.Deletion (object.Stats patch) in
  let filesChanged := Z.of_nat (length (object.Stats patch)) in
  contributeFilesAndLines repository headCommit targetCommit
  = ([attribute.Int GitAdditions (int.wrap additions);
      attribute.Int GitDeletions (int.wrap deletions);
      attribute.Int GitModifiedFiles filesChanged], None)
  ∧ (int.InRange additions -> int.wrap additions = additions)
  ∧ (int.InRange deletions -> int.wrap deletions = deletions)
  ∧ contributeFilesAndLines repository' headCommit targetCommit
    = contributeFilesAndLines repository headCommit targetCommit.
Proof.
  intros H1 H2 H3 H1' H2' H3' Hperm. simpl.
  rewrite (contributeFilesAndLines_patch _ _ _ _ _ _ H1 H2 H3).
  rewrite (contributeFilesAndLines_patch _ _ _ _ _ _ H1' H2' H3').
  split; [done|]. split; [apply wrap_in_range|]. split; [apply wrap_in_range|].
  rewrite (total_perm object.Addition _ _ Hperm).
  rewrite (total_perm object.Deletion _ _ Hperm).
  by rewrite (Permutation_length Hperm).
Qed.

(** ** The walk over the history *)

Lemma lookup_by_Some {A : Type} (name : A -> string) (l : list A) (n : string) (x : A) :
  Model.lookup_by name l n = Some x -> name x = n ∧ x ∈ l.
Proof.
  induction l as [|y l IH]; simpl; [done|].
  case_decide as Hn; intros H.
  - injection H as ->. split; [done|]. by left.
  - destruct (IH H) as [? ?]. split; [done|]. by right.
Qed.

Lemma pending_mono (cs : list object.Commit) (h : plumbing.Hash)
    (seen : list plumbing.Hash) :
  (Model.pending cs (h :: seen) <= Model.pending cs seen)%nat.
Proof.
  unfold Model.pending. induction cs as [|x cs IH]; [simpl; lia|].
  rewrite filter_cons, filter_cons. repeat case_decide; csimpl; try lia.
  exfalso.
  match goal with H1 : _ ∉ _ :: _ |- _ => apply not_elem_of_cons in H1 as [? ?] end; done.
Qed.

Lemma pending_visit (cs : list object.Commit) (h : plumbing.Hash) (c : object.Commit)
    (seen : list plumbing.Hash) :
  Model.lookup_by object.Hash cs h = Some c -> h ∉ seen ->
  (Model.pending cs (h :: seen) + length (object.ParentHashes c)
   <= Model.pending cs seen)%nat.
Proof.
  induction cs as [|x cs IH]; simpl; [done|]. intros Hl Hs.
  pose proof (pending_mono cs h seen) as Hmono.
  unfold Model.pending in *. rewrite filter_cons, filter_cons.
  destruct (decide (object.Hash x = h)) as [Hx|Hne].
  - rewrite decide_True in Hl by done. injection Hl as ->. subst h.
    rewrite decide_False by (intros Hn; apply Hn; by left).
    rewrite decide_True by done. csimpl. lia.
  - rewrite decide_False in Hl by done. specialize (IH Hl Hs).
    repeat case_decide; csimpl; try lia; exfalso.
    match goal with H1 : _ ∉ _ :: _ |- _ => apply not_elem_of_cons in H1 as [? ?] end.
    done.
Qed.

Section Walk.

Context (s : Model.Store).

Lemma reaches_avoiding_start (avoid : list plumbing.Hash) (h : plumbing.Hash)
    (d : object.Commit) :
  reaches_avoiding s avoid h d -> (h ∉ avoid) ∧ is_Some (Model.commit_of s h).
Proof. destruct 1; eauto. Qed.

Lemma reaches_avoiding_target (avoid : list plumbing.Hash) (h : plumbing.Hash)
    (d : object.Commit) :
  reaches_avoiding s avoid h d ->
  (object.Hash d ∉ avoid) ∧ Model.commit_of s (object.Hash d) = Some d.
Proof.
  induction 1 as [h c Hh Hc|h c p d Hh Hc Hp Hr IH]; [|done].
  destruct (lookup_by_Some _ _ _ _ Hc) as [<- _]. done.
Qed.

Lemma reaches_avoiding_weaken (avoid : list plumbing.Hash) (x h : plumbing.Hash)
    (d : object.Commit) :
  reaches_avoiding s (x :: avoid) h d -> reaches_avoiding s avoid h d.
Proof.
  induction 1 as [h c Hh Hc|h c p d Hh Hc Hp Hr IH].
  - apply reaches_here; [set_solver|done].
  - eapply reaches_parent; eauto. set_solver.
Qed.

(** A path that avoids [seen] either avoids [h] too, or passes through [h]
    a last time and ends there or continues from one of its parents. *)
Lemma reaches_avoiding_split (seen : list plumbing.Hash) (h h0 : plumbing.Hash)
    (c d : object.Commit) :
  Model.commit_of s h = Some c ->
  reaches_avoiding s seen h0 d ->
  reaches_avoiding s (h :: seen) h0 d
  ∨ d = c
  ∨ ∃ p, p ∈ object.ParentHashes c ∧ reaches_avoiding s (h :: seen) p d.
Proof.
  intros Hc. induction 1 as [h0 c0 Hh Hc0|h0 c0 p d Hh Hc0 Hp Hr IH].
  - destruct (decide (h0 = h)) as [->|Hne].
    + right. left. congruence.
    + left. apply reaches_here; [set_solver|done].
  - destruct IH as [IH|[IH|IH]]; [|by right; left|by right; right].
    destruct (decide (h0 = h)) as [->|Hne].
    + right. right. exists p. split; [congruence|done].
    + left. eapply reaches_parent; eauto. set_solver.
Qed.

Lemma walk_sound (fuel : nat) (stack seen : list plumbing.Hash) (d : object.Commit) :
  d ∈ Model.walk s fuel stack seen ->
  ∃ h, h ∈ stack ∧ reaches_avoiding s seen h d.
Proof.
  revert stack seen.
  induction fuel as [|fuel IH]; intros stack seen; simpl; [by intros ?%elem_of_nil|].
  destruct stack as [|h stack]; [by intros ?%elem_of_nil|].
  case_decide as Hseen.
  - intros (h' & Hin & Hr)%IH. exists h'. split; [by right|done].
  - destruct (Model.commit_of s h) as [c|] eqn:Hc.
    + intros [->|Hin]%elem_of_cons.
      * exists h. split; [by left|]. by apply reaches_here.
      * apply IH in Hin as (h' & Hin & Hr%reaches_avoiding_weaken).
        apply elem_of_app in Hin as [Hin|Hin].
        -- exists h. split; [by left|]. eapply reaches_parent; eauto.
        -- exists h'. split; [by right|done].
    + intros (h' & Hin & Hr)%IH. exists h'. split; [by right|done].
Qed.

Lemma walk_complete (fuel : nat) (stack seen : list plumbing.Hash)
    (h0 : plumbing.Hash) (d : object.Commit) :
  (length stack + Model.pending (Model.commits s) seen <= fuel)%nat ->
  h0 ∈ stack -> reaches_avoiding s seen h0 d ->
  d ∈ Model.walk s fuel stack seen.
Proof.
  revert stack seen h0.
  induction fuel as [|fuel IH]; intros stack seen h0 Hfuel Hin Hr.
  { destruct stack; [by apply elem_of_nil in Hin|simpl in Hfuel; lia]. }
  destruct stack as [|h stack]; [by apply elem_of_nil in Hin|].
  simpl in Hfuel. simpl.
  destruct (reaches_avoiding_start _ _ _ Hr) as [Hfresh [c0 Hc0]].
  case_decide as Hseen.
  - apply elem_of_cons in Hin as [->|Hin]; [done|].
    apply (IH stack seen h0); [lia|done|done].
  - destruct (Model.commit_of s h) as [c|] eqn:Hc.
    + pose proof (pending_visit _ _ _ _ Hc Hseen) as Hp.
      assert (length (object.ParentHashes c ++ stack)
              + Model.pending (Model.commits s) (h :: seen) <= fuel)%nat as Hfuel'.
      { rewrite length_app. lia. }
      destruct (reaches_avoiding_split seen h h0 c d Hc Hr) as [Hr'|[->|(p & Hp' & Hr')]].
      * apply elem_of_cons in Hin as [->|Hin].
        { apply reaches_avoiding_start in Hr' as [Hno _]. set_solver. }
        right. apply (IH _ _ h0); [done|set_solver|done].
      * by left.
      * right. apply (IH _ _ p); [done|set_solver|done].
    + apply elem_of_cons in Hin as [->|Hin]; [congruence|].
      apply (IH stack seen h0); [lia|done|done].
Qed.

Lemma walk_NoDup (fuel : nat) (stack seen : list plumbing.Hash) :
  NoDup (object.Hash <$> Model.walk s fuel stack seen).
Proof.
  revert stack seen.
  induction fuel as [|fuel IH]; intros stack seen; simpl; [constructor|].
  destruct stack as [|h stack]; [constructor|].
  case_decide; [done|].
  destruct (Model.commit_of s h) as [c|] eqn:Hc; [|done].
  simpl. constructor; [|done].
  intros (d & Hd & Hin)%list_elem_of_fmap.
  apply walk_sound in Hin as (h' & _ & Hr).
  apply reaches_avoiding_target in Hr as [Hfresh _].
  destruct (lookup_by_Some _ _ _ _ Hc) as [Hh _].
  rewrite <- Hd, Hh in Hfresh. set_solver.
Qed.

(** The history of a commit holds the commits reachable from it, and only
    them. *)
Lemma history_reaches (h : plumbing.Hash) (d : object.Commit) :
  d ∈ Model.history s h ↔ reaches s h d.
Proof.
  unfold Model.history, reaches, Model.walk_fuel. split.
  - intros (h' & Hin & Hr)%walk_sound.
    apply list_elem_of_singleton in Hin as ->. done.
  - intros Hr. apply (walk_complete _ _ _ h); [simpl; lia|by left|done].
Qed.

(** The history of a commit holds each commit once. *)
Lemma history_NoDup (h : plumbing.Hash) : NoDup (Model.history s h).
Proof. eapply NoDup_fmap_1. apply walk_NoDup. Qed.

Lemma history_self (c : object.Commit) :
  Model.commit_of s (object.Hash c) = Some c -> c ∈ Model.history s (object.Hash c).
Proof.
  intros Hc. apply history_reaches. apply reaches_here; [apply not_elem_of_nil|done].
Qed.

Lemma MergeBase_self (c : object.Commit) :
  Model.commit_of s (object.Hash c) = Some c -> Model.MergeBase s c c = Ok [c].
Proof.
  intros Hc. unfold Model.MergeBase.
  assert (Model.is_ancestor s c c = true) as ->; [|done].
  unfold Model.is_ancestor. apply bool_decide_eq_true.
  apply list_elem_of_fmap. exists c. split; [done|]. by apply history_self.
Qed.

Lemma Log_since (from : plumbing.Hash) (since : object.Time) (c : object.Commit) :
  Model.commit_of s from = Some c ->
  Model.Log s {| git.From := from; git.Since := Some since |}
  = Ok {| object.Commits :=
            filter (fun c => since <= object.When (object.Committer c))
                   (Model.history s from);
          object.IterErr := None |}.
Proof. intros Hc. unfold Model.Log. simpl. by rewrite Hc. Qed.

End Walk.

(** The patch between a tree and itself has no entry. *)
Lemma Patch_self (t : object.Tree) :
  Model.Patch t t = Ok {| object.Stats := [] |}.
Proof.
  unfold Model.Patch.
  assert (merge Model.diff_file (object.Files t) (object.Files t) = ∅) as ->.
  { apply map_eq. intros path. rewrite lookup_merge, lookup_empty.
    destruct (object.Files t !! path) as [b|]; simpl; [|done].
    unfold Model.diff_file. by rewrite decide_True. }
  by rewrite map_to_list_empty.
Qed.

(** ** The committers over a store *)

(** The walk [contributeCommitters] asks for, on a store: each commit once,
    and exactly the commits reachable from [from] that were committed at or
    after [since]. *)
Lemma walk_since (s : Model.Store) (from : object.Commit) (since : object.Time) :
  Model.commit_of s (object.Hash from) = Some from ->
  ∃ visited,
    git.Log (Model.open s) {| git.From := object.Hash from; git.Since := Some since |}
    = Ok {| object.Commits := visited; object.IterErr := None |}
    ∧ NoDup visited
    ∧ ∀ c, c ∈ visited
           ↔ reaches s (object.Hash from) c ∧ since <= object.When (object.Committer c).
Proof.
  intros Hc. eexists. split; [by apply (Log_since s _ _ from)|].
  split; [apply NoDup_filter, history_NoDup|].
  intros c. rewrite list_elem_of_filter, history_reaches. tauto.
Qed.

Lemma committers_of_walk (oa oc : RangeOrder) (repository : git.Repository)
    (headCommit targetCommit ancestor : object.Commit)
    (others visited : list object.Commit) (e : errors.error) :
  git.MergeBase repository headCommit targetCommit = Ok (ancestor :: others) ->
  git.Log repository
    {| git.From := object.Hash headCommit;
       git.Since := Some (object.When (object.Author ancestor)) |}
  = Ok {| object.Commits := visited; object.IterErr := e |} ->
  let out := contributeCommitters oa oc repository headCommit targetCommit in
  out.2 = None
  ∧ strings_under ScmAuthors out.1 = emails object.Author visited
  ∧ strings_under ScmCommitters out.1 = emails object.Committer visited
  ∧ (ScmAuthors ∈ keys out.1 ↔ visited ≠ [])
  ∧ (ScmCommitters ∈ keys out.1 ↔ visited ≠ []).
Proof.
  intros Hmb Hlog.
  destruct (contributeCommitters_sets oa oc _ _ _ _ _ _ Hmb Hlog)
    as (He & Ha & Hc & Hka & Hkc).
  simpl in *. rewrite collected_authors in Hka, Ha.
  rewrite collected_committers in Hkc, Hc. simpl in *.
  rewrite emails_empty_iff in Hka, Hkc. auto.
Qed.

(** C3.  With a non-empty set of merge-bases, [contributeCommitters] takes
    the first one as the ancestor and walks the history from the head commit
    with the ancestor's author timestamp as the bound: the walk visits each
    commit once, and exactly the commits reachable from the head commit
    whose committer timestamp is at or after that bound; the author e-mails
    of the visited commits make the author set and their committer e-mails
    the committer set. *)
Theorem committers_walk_from_head (oa oc : RangeOrder) (s : Model.Store)
    (headCommit targetCommit ancestor : object.Commit) (others : list object.Commit) :
  Model.commit_of s (object.Hash headCommit) = Some headCommit ->
  git.MergeBase (Model.open s) headCommit targetCommit = Ok (ancestor :: others) ->
  ∃ visited,
    git.Log (Model.open s)
      {| git.From := object.Hash headCommit;
         git.Since := Some (object.When (object.Author ancestor)) |}
    = Ok {| object.Commits := visited; object.IterErr := None |}
    ∧ NoDup visited
    ∧ (∀ c, c ∈ visited
            ↔ reaches s (object.Hash headCommit) c
              ∧ object.When (object.Author ancestor) <= object.When (object.Committer c))
    ∧ (contributeCommitters oa oc (Model.open s) headCommit targetCommit).2 = None
    ∧ strings_under ScmAuthors
        (contributeCommitters oa oc (Model.open s) headCommit targetCommit).1
      = emails object.Author visited
    ∧ strings_under ScmCommitters
        (contributeCommitters oa oc (Model.open s) headCommit targetCommit).1
      = emails object.Committer visited.
Proof.
  intros Hhead Hmb.
  destruct (walk_since s headCommit (object.When (object.Author ancestor)) Hhead)
    as (visited & Hlog & Hnd & Hin).
  exists visited. split; [done|]. split; [done|]. split; [done|].
  destruct (committers_of_walk oa oc _ _ _ _ _ _ _ Hmb Hlog) as (He & Ha & Hc & _).
  auto.
Qed.

(** C5, as amended.  When the head commit and the target commit are the same
    commit of the repository, that commit is the ancestor and
    [contributeCommitters] returns no error; the author and the committer
    sets hold the e-mails of the commits reachable from it that were
    committed at or after its author timestamp.  The commit itself is one of
    them unless it was committed before it was written, and then both sets
    are non-empty and both attributes are emitted.  The diffstat of its tree
    against itself is three zeros. *)
Theorem head_equal_to_target (oa oc : RangeOrder) (s : Model.Store)
    (c : object.Commit) (tree : object.Tree) :
  Model.commit_of s (object.Hash c) = Some c ->
  git.Tree (Model.open s) c = Ok tree ->
  git.MergeBase (Model.open s) c c = Ok [c]
  ∧ (∃ visited,
       NoDup visited
       ∧ (∀ d, d ∈ visited
               ↔ reaches s (object.Hash c) d
                 ∧ object.When (object.Author c) <= object.When (object.Committer d))
       ∧ (contributeCommitters oa oc (Model.open s) c c).2 = None
       ∧ strings_under ScmAuthors (contributeCommitters oa oc (Model.open s) c c).1
         = emails object.Author visited
       ∧ strings_under ScmCommitters (contributeCommitters oa oc (Model.open s) c c).1
         = emails object.Committer visited
       ∧ (object.When (object.Author c) <= object.When (object.Committer c) ->
          c ∈ visited
          ∧ ScmAuthors ∈ keys (contributeCommitters oa oc (Model.open s) c c).1
          ∧ ScmCommitters ∈ keys (contributeCommitters oa oc (Model.open s) c c).1))
  ∧ contributeFilesAndLines (Model.open s) c c
    = ([attribute.Int GitAdditions 0; attribute.Int GitDeletions 0;
        attribute.Int GitModifiedFiles 0], None).
Proof.
  intros Hc Htree.
  pose proof (MergeBase_self s c Hc) as Hmb.
  split; [done|]. split.
  - destruct (walk_since s c (object.When (object.Author c)) Hc)
      as (visited & Hlog & Hnd & Hin).
    exists visited. split; [done|]. split; [done|].
    destruct (committers_of_walk oa oc (Model.open s) _ _ _ _ _ _ Hmb Hlog)
      as (He & Ha & Hcm & Hka & Hkc).
    split; [done|]. split; [done|]. split; [done|].
    intros Hwhen.
    assert (c ∈ visited) as Hself.
    { apply Hin. split; [|done]. apply reaches_here; [apply not_elem_of_nil|done]. }
    split; [done|].
    assert (visited ≠ []) by (intros ->; by apply elem_of_nil in Hself).
    split; [by apply Hka|by apply Hkc].
  - rewrite (contributeFilesAndLines_patch (Model.open s) c c tree tree
               {| object.Stats := [] |} Htree Htree (Patch_self tree)).
    done.
Qed.

(** C4, as amended.  In the repository C1 (root) -> C2 (adds [a.txt] with
    three lines) -> C3 (changes one line of [a.txt]), with the target branch
    at C1 and HEAD at C3, and no commit committed before C1 was written: the
    two commits resolve to C3 and C1, the common ancestor is C1, the author
    and committer sets hold the e-mails of C1, C2 and C3 (the ancestor is
    within the bound of the walk), and the diffstat between the two trees
    counts one changed file.  Nothing is said of the numbers of lines. *)
Theorem three_commits_scenario (oa oc : RangeOrder)
    (a1 c1 a2 c2 a3 c3 : object.Signature) :
  object.When a1 <= object.When c1 ->
  object.When a1 <= object.When c2 ->
  object.When a1 <= object.When c3 ->
  let s := Scenario.three_commits a1 c1 a2 c2 a3 c3 in
  let head := Scenario.C3 a3 c3 in
  let target := Scenario.C1 a1 c1 in
  calculateCommits (Scenario.checkout (Model.open s) Scenario.local_env) (Model.open s) "" "main"
  = (Some head, Some target, None)
  ∧ git.MergeBase (Model.open s) head target = Ok [target]
  ∧ (contributeCommitters oa oc (Model.open s) head target).2 = None
  ∧ strings_under ScmAuthors (contributeCommitters oa oc (Model.open s) head target).1
    = {[object.Email a1; object.Email a2; object.Email a3]}
  ∧ strings_under ScmCommitters (contributeCommitters oa oc (Model.open s) head target).1
    = {[object.Email c1; object.Email c2; object.Email c3]}
  ∧ ∃ additions deletions,
      contributeFilesAndLines (Model.open s) head target
      = ([attribute.Int GitAdditions additions; attribute.Int GitDeletions deletions;
          attribute.Int GitModifiedFiles 1], None).
Proof.
  intros H1 H2 H3 s head target.
  assert (Model.history s "c3" = [head; Scenario.C2 a2 c2; target]) as Hhist
    by (vm_compute; reflexivity).
  assert (git.MergeBase (Model.open s) head target = Ok [target]) as Hmb
    by (vm_compute; reflexivity).
  assert (git.Log (Model.open s)
            {| git.From := object.Hash head;
               git.Since := Some (object.When (object.Author target)) |}
          = Ok {| object.Commits := [head; Scenario.C2 a2 c2; target];
                  object.IterErr := None |}) as Hlog.
  { change (git.Log (Model.open s)) with (Model.Log s).
    rewrite (Log_since s _ _ head) by (vm_compute; reflexivity).
    change (object.Hash head) with "c3". rewrite Hhist.
    rewrite !filter_cons, filter_nil.
    rewrite !decide_True by done. done. }
  split; [vm_compute; reflexivity|]. split; [done|].
  destruct (committers_of_walk oa oc _ _ _ _ _ _ _ Hmb Hlog) as (He & Ha & Hc & _).
  split; [done|]. rewrite Ha, Hc. unfold emails. simpl.
  split; [set_solver|]. split; [set_solver|].
  eexists _, _. vm_compute. reflexivity.
Qed.

(** ** The program on the example repositories *)

Example Wrapf_of_nil :
  errors.Wrapf None "not able to find a common ancestor between HEAD and TARGET_BRANCH: %v"
    [errors.verb_v None] = None.
Proof. reflexivity. Qed.

Example Wrapf_of_error :
  errors.verb_v
    (errors.Wrapf (Some Model.ErrBranchNotFound)
       "not able to retrieve the %s TARGET_BRANCH: %v"
       ["main"; errors.verb_v (Some Model.ErrBranchNotFound)])
  = "not able to retrieve the main TARGET_BRANCH: branch not found: branch not found".
Proof. reflexivity. Qed.

Example checkGitProvider_github :
  checkGitProvider (Scenario.checkout (Model.open Scenario.project) Scenario.github_env)
  = ("c3", "main", "Github").
Proof. vm_compute. reflexivity. Qed.

Example checkGitProvider_gitlab :
  checkGitProvider
    (Scenario.checkout (Model.open Scenario.project)
       [("GITHUB_SHA", "c3");
        ("CI_MERGE_REQUEST_SOURCE_BRANCH_SHA", "c2");
        ("CI_MERGE_REQUEST_TARGET_BRANCH_NAME", "main")])
  = ("c2", "main", "Gitlab").
Proof. vm_compute. reflexivity. Qed.

Example checkGitProvider_local :
  checkGitProvider (Scenario.checkout (Model.open Scenario.project) Scenario.local_env)
  = ("", "main", "").
Proof. vm_compute. reflexivity. Qed.

Example history_of_project :
  Model.history Scenario.project "c3" = [Scenario.P3; Scenario.P2; Scenario.P1].
Proof. vm_compute. reflexivity. Qed.

Example patch_of_one_changed_line :
  Model.Patch Scenario.T2 Scenario.T3
  = Ok {| object.Stats :=
            [{| object.FileName := "a.txt"; object.Addition := 1; object.Deletion := 1 |}] |}.
Proof. vm_compute. reflexivity. Qed.

Example pass_on_github :
  contributeAttributes
    (Scenario.checkout (Model.open Scenario.project) Scenario.github_env)
    range_in_order range_in_order Scenario.work
  = Some
      [attribute.String ScmType "git";
       attribute.String ScmProvider "Github";
       attribute.StringSlice ScmRepository ["https://example.org/project.git"];
       attribute.String ScmBranch "HEAD";
       attribute.StringSlice ScmAuthors
         ["cat@example.org"; "ann@example.org"; "bob@example.org"];
       attribute.StringSlice ScmCommitters
         ["cat@example.org"; "ann@example.org"; "bob@example.org"];
       attribute.Int GitAdditions 0;
       attribute.Int GitDeletions 3;
       attribute.Int GitModifiedFiles 1].
Proof. vm_compute. reflexivity. Qed.

Example pass_outside_a_repository :
  contributeAttributes
    (Scenario.checkout (Model.open Scenario.project) Scenario.github_env)
    range_in_order range_in_order Scenario.elsewhere
  = Some [].
Proof. vm_compute. reflexivity. Qed.

Example pass_without_target_branch :
  contributeAttributes
    (Scenario.checkout (Model.open Scenario.project) [("TARGET_BRANCH", "release")])
    range_in_order range_in_order Scenario.work
  = Some
      [attribute.String ScmType "git";
       attribute.StringSlice ScmRepository ["https://example.org/project.git"];
       attribute.String ScmBranch "HEAD"].
Proof. vm_compute. reflexivity. Qed.

(** ** The properties on the example repositories *)

Lemma empty_set_suppression_witness :
  git.MergeBase (Model.open Scenario.skewed) Scenario.K Scenario.K = Ok [Scenario.K]
  ∧ git.Log (Model.open Scenario.skewed)
      {| git.From := "k"; git.Since := Some 200 |}
    = Ok {| object.Commits := []; object.IterErr := None |}
  ∧ contributeCommitters range_in_order range_in_order
      (Model.open Scenario.skewed) Scenario.K Scenario.K = ([], None)
  ∧ ¬ (ScmAuthors ∈ keys (contributeCommitters range_in_order range_in_order
                            (Model.open Scenario.skewed) Scenario.K Scenario.K).1).
Proof.
  assert (git.MergeBase (Model.open Scenario.skewed) Scenario.K Scenario.K
          = Ok [Scenario.K]) as Hmb by (vm_compute; reflexivity).
  assert (git.Log (Model.open Scenario.skewed)
            {| git.From := object.Hash Scenario.K;
               git.Since := Some (object.When (object.Author Scenario.K)) |}
          = Ok {| object.Commits := []; object.IterErr := None |}) as Hlog
    by (vm_compute; reflexivity).
  split; [exact Hmb|]. split; [exact Hlog|]. split; [vm_compute; reflexivity|].
  destruct (empty_set_suppression range_in_order range_in_order
              (Model.open Scenario.skewed) Scenario.K Scenario.K Scenario.K [] _ Hmb Hlog)
    as (_ & Hka & _).
  intros Hin. apply Hka in Hin. apply Hin. vm_compute. reflexivity.
Defined.

Lemma no_common_ancestor_witness :
  git.MergeBase (Model.open Scenario.unrelated) Scenario.R1 Scenario.R2 = Ok []
  ∧ contributeCommitters range_in_order range_in_order
      (Model.open Scenario.unrelated) Scenario.R1 Scenario.R2 = ([], None).
Proof.
  assert (git.MergeBase (Model.open Scenario.unrelated) Scenario.R1 Scenario.R2 = Ok [])
    as Hmb by (vm_compute; reflexivity).
  split; [exact Hmb|].
  exact (no_common_ancestor_returns_nil range_in_order range_in_order
           (Model.open Scenario.unrelated) Scenario.R1 Scenario.R2 Hmb).
Defined.

Lemma committers_walk_witness :
  Model.commit_of Scenario.project "c3" = Some Scenario.P3
  ∧ git.MergeBase (Model.open Scenario.project) Scenario.P3 Scenario.P1 = Ok [Scenario.P1]
  ∧ ∃ visited,
      git.Log (Model.open Scenario.project) {| git.From := "c3"; git.Since := Some 100 |}
      = Ok {| object.Commits := visited; object.IterErr := None |}
      ∧ NoDup visited
      ∧ (∀ c, c ∈ visited
              ↔ reaches Scenario.project "c3" c ∧ 100 <= object.When (object.Committer c))
      ∧ (contributeCommitters range_in_order range_reversed
           (Model.open Scenario.project) Scenario.P3 Scenario.P1).2 = None
      ∧ strings_under ScmAuthors
          (contributeCommitters range_in_order range_reversed
             (Model.open Scenario.project) Scenario.P3 Scenario.P1).1
        = emails object.Author visited
      ∧ strings_under ScmCommitters
          (contributeCommitters range_in_order range_reversed
             (Model.open Scenario.project) Scenario.P3 Scenario.P1).1
        = emails object.Committer visited.
Proof.
  assert (Model.commit_of Scenario.project (object.Hash Scenario.P3) = Some Scenario.P3)
    as Hhead by (vm_compute; reflexivity).
  assert (git.MergeBase (Model.open Scenario.project) Scenario.P3 Scenario.P1
          = Ok [Scenario.P1]) as Hmb by (vm_compute; reflexivity).
  split; [exact Hhead|]. split; [exact Hmb|].
  exact (committers_walk_from_head range_in_order range_reversed Scenario.project
           Scenario.P3 Scenario.P1 Scenario.P1 [] Hhead Hmb).
Defined.

Lemma head_equal_to_target_witness :
  Model.commit_of Scenario.single_commit "c1" = Some Scenario.P1
  ∧ git.Tree (Model.open Scenario.single_commit) Scenario.P1 = Ok Scenario.T1
  ∧ git.MergeBase (Model.open Scenario.single_commit) Scenario.P1 Scenario.P1
    = Ok [Scenario.P1]
  ∧ ScmAuthors ∈ keys (contributeCommitters range_in_order range_in_order
                         (Model.open Scenario.single_commit) Scenario.P1 Scenario.P1).1
  ∧ contributeFilesAndLines (Model.open Scenario.single_commit) Scenario.P1 Scenario.P1
    = ([attribute.Int GitAdditions 0; attribute.Int GitDeletions 0;
        attribute.Int GitModifiedFiles 0], None).
Proof.
  assert (Model.commit_of Scenario.single_commit (object.Hash Scenario.P1)
          = Some Scenario.P1) as Hc by (vm_compute; reflexivity).
  assert (git.Tree (Model.open Scenario.single_commit) Scenario.P1 = Ok Scenario.T1)
    as Ht by (vm_compute; reflexivity).
  split; [exact Hc|]. split; [exact Ht|].
  destruct (head_equal_to_target range_in_order range_in_order Scenario.single_commit
              Scenario.P1 Scenario.T1 Hc Ht)
    as (Hmb & (visited & _ & _ & _ & _ & _ & Hself) & Hdiff).
  split; [exact Hmb|]. split; [|exact Hdiff].
  apply Hself. vm_compute. discriminate.
Defined.

Lemma diffstat_witness :
  let listed := Scenario.with_stats (Model.open Scenario.project)
                  [Scenario.stat_a; Scenario.stat_b; Scenario.stat_c] in
  let reordered := Scenario.with_stats (Model.open Scenario.project)
                     [Scenario.stat_c; Scenario.stat_a; Scenario.stat_b] in
  [Scenario.stat_a; Scenario.stat_b; Scenario.stat_c]
    ≡ₚ [Scenario.stat_c; Scenario.stat_a; Scenario.stat_b]
  ∧ contributeFilesAndLines listed Scenario.P3 Scenario.P1
    = ([attribute.Int GitAdditions 5; attribute.Int GitDeletions 6;
        attribute.Int GitModifiedFiles 3], None)
  ∧ contributeFilesAndLines reordered Scenario.P3 Scenario.P1
    = contributeFilesAndLines listed Scenario.P3 Scenario.P1.
Proof.
  intros listed reordered.
  assert ([Scenario.stat_a; Scenario.stat_b; Scenario.stat_c]
            ≡ₚ [Scenario.stat_c; Scenario.stat_a; Scenario.stat_b]) as Hperm.
  { symmetry. apply (Permutation_cons_append [Scenario.stat_a; Scenario.stat_b]). }
  split; [exact Hperm|].
  destruct (diffstat_is_commutative_reduction listed reordered Scenario.P3 Scenario.P1
              Scenario.T3 Scenario.T1 Scenario.T3 Scenario.T1
              {| object.Stats := [Scenario.stat_a; Scenario.stat_b; Scenario.stat_c] |}
              {| object.Stats := [Scenario.stat_c; Scenario.stat_a; Scenario.stat_b] |}
              eq_refl eq_refl eq_refl eq_refl eq_refl eq_refl Hperm)
    as (Hout & _ & _ & Hsame).
  split; [|exact Hsame]. rewrite Hout. vm_compute. reflexivity.
Defined.

Lemma three_commits_witness :
  object.When Scenario.ann <= object.When Scenario.ann
  ∧ object.When Scenario.ann <= object.When Scenario.bob
  ∧ object.When Scenario.ann <= object.When Scenario.cat
  ∧ git.MergeBase (Model.open Scenario.project) Scenario.P3 Scenario.P1 = Ok [Scenario.P1]
  ∧ strings_under ScmAuthors
      (contributeCommitters range_in_order range_in_order
         (Model.open Scenario.project) Scenario.P3 Scenario.P1).1
    = {["ann@example.org"; "bob@example.org"; "cat@example.org"]}
  ∧ ∃ additions deletions,
      contributeFilesAndLines (Model.open Scenario.project) Scenario.P3 Scenario.P1
      = ([attribute.Int GitAdditions additions; attribute.Int GitDeletions deletions;
          attribute.Int GitModifiedFiles 1], None).
Proof.
  assert (object.When Scenario.ann <= object.When Scenario.ann) as H1 by (simpl; lia).
  assert (object.When Scenario.ann <= object.When Scenario.bob) as H2 by (simpl; lia).
  assert (object.When Scenario.ann <= object.When Scenario.cat) as H3 by (simpl; lia).
  split; [exact H1|]. split; [exact H2|]. split; [exact H3|].
  destruct (three_commits_scenario range_in_order range_in_order
              Scenario.ann Scenario.ann Scenario.bob Scenario.bob Scenario.cat Scenario.cat
              H1 H2 H3) as (_ & Hmb & _ & Ha & _ & Hd).
  split; [exact Hmb|]. split; [exact Ha|exact Hd].
Defined.

Lemma calculateCommits_witness :
  "c3" ≠ ""
  ∧ calculateCommits (Scenario.checkout (Model.open Scenario.project) Scenario.github_env)
      (Model.open Scenario.project) "c3" "main"
    = (Some Scenario.P3, Some Scenario.P1, None)
  ∧ calculateCommits (Scenario.checkout (Model.open Scenario.project) Scenario.github_env)
      (with_Head (Model.open Scenario.project) (Err Model.ErrReferenceNotFound)) "c3" "main"
    = (Some Scenario.P3, Some Scenario.P1, None).
Proof.
  assert ("c3" ≠ "") as Hne by discriminate.
  split; [exact Hne|].
  destruct (calculateCommits_meets_contract
              (Scenario.checkout (Model.open Scenario.project) Scenario.github_env)
              (Model.open Scenario.project) "c3" "main") as [Hres Hhead].
  assert (calculateCommits
            (Scenario.checkout (Model.open Scenario.project) Scenario.github_env)
            (Model.open Scenario.project) "c3" "main"
          = (Some Scenario.P3, Some Scenario.P1, None)) as Hcalc
    by (vm_compute; reflexivity).
  split; [exact Hcalc|].
  rewrite (Hhead (Err Model.ErrReferenceNotFound) Hne). exact Hcalc.
Defined.

(** *** Inputs on which a statement of the specification fails *)

(** C1.  In a checkout whose history is cut short the committers fail, and
    the pass returns more than what was accumulated before that failure: the
    diffstat is computed all the same and its three attributes follow. *)
Lemma failed_committers_counterexample :
  let repository := Scenario.shallow (Model.open Scenario.project) in
  let host := Scenario.checkout repository Scenario.local_env in
  let before :=
    [attribute.String ScmType "git";
     attribute.StringSlice ScmRepository ["https://example.org/project.git"];
     attribute.String ScmBranch "HEAD"] in
  calculateCommits host repository "" "main" = (Some Scenario.P3, Some Scenario.P1, None)
  ∧ (contributeCommitters range_in_order range_in_order repository
       Scenario.P3 Scenario.P1).2 ≠ None
  ∧ contributeAttributes host range_in_order range_in_order Scenario.work
    = Some (before ++ [attribute.Int GitAdditions 0; attribute.Int GitDeletions 3;
                       attribute.Int GitModifiedFiles 1])
  ∧ contributeAttributes host range_in_order range_in_order Scenario.work ≠ Some before.
Proof.
  split; [vm_compute; reflexivity|]. split; [vm_compute; discriminate|].
  split; [vm_compute; reflexivity|]. vm_compute. discriminate.
Qed.

(** C4.  In the repository of the scenario, with each commit written by its
    own person, the author of C1 is in the author set: the set has three
    members, not the two authors of C2 and C3, and so has the committer
    set. *)
Lemma three_commits_counterexample :
  let repository := Model.open Scenario.project in
  let people := ["cat@example.org"; "ann@example.org"; "bob@example.org"] in
  git.MergeBase repository Scenario.P3 Scenario.P1 = Ok [Scenario.P1]
  ∧ contributeCommitters range_in_order range_in_order repository Scenario.P3 Scenario.P1
    = ([attribute.StringSlice ScmAuthors people;
        attribute.StringSlice ScmCommitters people], None)
  ∧ object.Email (object.Author Scenario.P1) ∈ people
  ∧ ¬ (people ≡ₚ [object.Email (object.Author Scenario.P2);
                   object.Email (object.Author Scenario.P3)])
  ∧ ¬ (people ≡ₚ [object.Email (object.Committer Scenario.P2);
                   object.Email (object.Committer Scenario.P3)]).
Proof.
  split; [vm_compute; reflexivity|]. split; [vm_compute; reflexivity|].
  split; [right; by left|].
  split; intros Hp; apply Permutation_length in Hp; discriminate.
Qed.

(** C5.  In a repository with a single commit, taken as head and as target,
    the author and committer sets are not empty and both attributes are
    emitted. *)
Lemma single_commit_counterexample :
  contributeCommitters range_in_order range_in_order
    (Model.open Scenario.single_commit) Scenario.P1 Scenario.P1
  = ([attribute.StringSlice ScmAuthors ["ann@example.org"];
      attribute.StringSlice ScmCommitters ["ann@example.org"]], None)
  ∧ strings_under ScmAuthors
      (contributeCommitters range_in_order range_in_order
         (Model.open Scenario.single_commit) Scenario.P1 Scenario.P1).1 ≠ ∅.
Proof.
  assert (contributeCommitters range_in_order range_in_order
            (Model.open Scenario.single_commit) Scenario.P1 Scenario.P1
          = ([attribute.StringSlice ScmAuthors ["ann@example.org"];
              attribute.StringSlice ScmCommitters ["ann@example.org"]], None)) as ->
    by (vm_compute; reflexivity).
  split; [done|]. unfold strings_under. simpl. set_solver.
Qed.

(** ** Further properties of the program *)

(** *** [mapToArray] *)

Lemma mapToArray_length (order : RangeOrder) (m : gmap string bool) :
  length (mapToArray order m) = size m.
Proof.
  rewrite mapToArray_perm, length_fmap. apply length_map_to_list.
Qed.

(** X3.  [mapToArray] lists every key of the map once, whatever the value
    stored under it and whatever the order of the loop: the array has no
    duplicate, it holds exactly the keys of the map, and it is as long as the
    map is large (empty for the empty map). *)
Theorem mapToArray_lists_each_key_once (order : RangeOrder) (m : gmap string bool) :
  NoDup (mapToArray order m)
  ∧ (∀ k, k ∈ mapToArray order m ↔ is_Some (m !! k))
  ∧ length (mapToArray order m) = size m.
Proof.
  split; [apply mapToArray_NoDup|]. split; [|apply mapToArray_length].
  intros k. rewrite mapToArray_elem_of. apply elem_of_dom.
Qed.

(** *** [checkGitProvider] *)

(** X1.  [checkGitProvider] returns a head revision exactly when it names a
    provider, the provider is then Github or Gitlab and the target branch is
    not empty; without a provider the target branch is the value of
    [TARGET_BRANCH], set or not. *)
Theorem checkGitProvider_invariant (host : Host) :
  let '(sha, baseRef, gitProvider) := checkGitProvider host in
  (sha ≠ "" ↔ gitProvider ≠ "")
  ∧ (gitProvider ≠ "" -> baseRef ≠ "" ∧ (gitProvider = "Github" ∨ gitProvider = "Gitlab"))
  ∧ (gitProvider = "" -> baseRef = Getenv host "TARGET_BRANCH").
Proof.
  unfold checkGitProvider.
  destruct (bool_decide (Getenv host "GITHUB_SHA" ≠ "")) eqn:E1;
    destruct (bool_decide (Getenv host "GITHUB_BASE_REF" ≠ "")) eqn:E2;
    destruct (bool_decide (Getenv host "CI_MERGE_REQUEST_SOURCE_BRANCH_SHA" ≠ "")) eqn:E3;
    destruct (bool_decide (Getenv host "CI_MERGE_REQUEST_TARGET_BRANCH_NAME" ≠ "")) eqn:E4;
    simpl;
    repeat match goal with
           | H : bool_decide _ = true |- _ => apply bool_decide_eq_true in H
           | H : bool_decide _ = false |- _ => clear H
           end;
    (split; [split; intros; done|]); (split; [|intros; done]);
    intros; split; auto; done.
Qed.

(** *** [contributeCommitters] *)

Lemma size_zero_dom (m : gmap string bool) : size m = 0%nat ↔ dom m = ∅.
Proof.
  pose proof (size_pos_dom m) as H. split.
  - intros Hs. destruct (decide (dom m = ∅)) as [|Hd]; [done|].
    apply H in Hd. lia.
  - intros Hd. destruct (decide (size m = 0%nat)) as [|Hs]; [done|].
    assert (0 < size m)%nat as Hp by lia. apply H in Hp. done.
Qed.

Lemma collected_sizes (it : object.CommitIter) :
  size (collected it).1 = 0%nat ↔ size (collected it).2 = 0%nat.
Proof.
  rewrite !size_zero_dom, collected_authors, collected_committers.
  by rewrite !emails_empty_iff.
Qed.

Lemma emitted_shape (key : string) (order : RangeOrder) (m : gmap string bool) :
  (size m = 0%nat ∧ emitted key order m = [])
  ∨ (size m ≠ 0%nat
     ∧ ∃ l, emitted key order m = [attribute.StringSlice key l]
            ∧ NoDup l ∧ l ≠ [] ∧ length l = size m).
Proof.
  unfold emitted. case_decide as Hs.
  - right. split; [lia|]. exists (mapToArray order m).
    split; [done|]. split; [apply mapToArray_NoDup|].
    pose proof (mapToArray_length order m) as Hl.
    split; [|done]. intros E. rewrite E in Hl. simpl in Hl. lia.
  - left. split; [lia|done].
Qed.

(** The three outcomes of [contributeCommitters]. *)
Lemma contributeCommitters_shape (oa oc : RangeOrder) (repository : git.Repository)
    (headCommit targetCommit : object.Commit) :
  (∃ e, contributeCommitters oa oc repository headCommit targetCommit = ([], Some e))
  ∨ contributeCommitters oa oc repository headCommit targetCommit = ([], None)
  ∨ (∃ la lc,
       contributeCommitters oa oc repository headCommit targetCommit
       = ([attribute.StringSlice ScmAuthors la; attribute.StringSlice ScmCommitters lc],
          None)
       ∧ NoDup la ∧ la ≠ [] ∧ NoDup lc ∧ lc ≠ []).
Proof.
  destruct (git.MergeBase repository headCommit targetCommit)
    as [[|ancestor others]|e] eqn:Hmb.
  - right. left. unfold contributeCommitters. by rewrite Hmb.
  - destruct (git.Log repository
                {| git.From := object.Hash headCommit;
                   git.Since := Some (object.When (object.Author ancestor)) |})
      as [it|e] eqn:Hlog.
    + rewrite (contributeCommitters_walked _ _ _ _ _ _ _ _ Hmb Hlog).
      pose proof (collected_sizes it) as Hsz.
      destruct (emitted_shape ScmAuthors oa (collected it).1)
        as [[Ha ->]|(Ha & la & -> & Hnda & Hnea & _)];
        destruct (emitted_shape ScmCommitters oc (collected it).2)
        as [[Hc ->]|(Hc & lc & -> & Hndc & Hnec & _)]; simpl.
      * right. by left.
      * exfalso. apply Hc. by apply Hsz.
      * exfalso. apply Ha. by apply Hsz.
      * right. right. exists la, lc. done.
    + left. destruct (contributeCommitters_log_error oa oc _ _ _ _ _ _ Hmb Hlog) as [e' ->].
      eauto.
  - left. destruct (contributeCommitters_merge_base_error oa oc _ _ _ _ Hmb) as [e' ->].
    eauto.
Qed.

(** X4.  [contributeCommitters] emits its two attributes together or not at
    all: its output has no key, or the keys [scm-authors] and
    [scm-committers] in this order; and when it returns an error it returns
    no attribute. *)
Theorem authors_and_committers_together (oa oc : RangeOrder)
    (repository : git.Repository) (headCommit targetCommit : object.Commit) :
  let out := contributeCommitters oa oc repository headCommit targetCommit in
  (keys out.1 = [] ∨ keys out.1 = [ScmAuthors; ScmCommitters])
  ∧ (out.2 ≠ None -> out.1 = []).
Proof.
  simpl.
  destruct (contributeCommitters_shape oa oc repository headCommit targetCommit)
    as [[e ->]|[->|(la & lc & -> & _)]]; simpl; split; auto; done.
Qed.

(** X5.  Every attribute [contributeCommitters] emits is a list of strings
    that is not empty and holds no string twice: an address shared by several
    commits is listed once. *)
Theorem emitted_lists_have_no_duplicate (oa oc : RangeOrder)
    (repository : git.Repository) (headCommit targetCommit : object.Commit)
    (kv : attribute.KeyValue) :
  kv ∈ (contributeCommitters oa oc repository headCommit targetCommit).1 ->
  ∃ l, attribute.Val kv = attribute.STRINGSLICE l ∧ NoDup l ∧ l ≠ [].
Proof.
  destruct (contributeCommitters_shape oa oc repository headCommit targetCommit)
    as [[e ->]|[->|(la & lc & -> & Hnda & Hnea & Hndc & Hnec)]]; simpl.
  - by intros ?%elem_of_nil.
  - by intros ?%elem_of_nil.
  - intros [->|[->|?%elem_of_nil]%elem_of_cons]%elem_of_cons; [| |done]; simpl; eauto.
Qed.

Lemma lookup_foldl_insert (who : object.Commit -> object.Signature)
    (cs : list object.Commit) (m : gmap string bool) (k : string) :
  foldl (fun m x => <[object.Email (who x) := true]> m) m cs !! k
  = if decide (k ∈ (fun c => object.Email (who c)) <$> cs) then Some true else m !! k.
Proof.
  revert m. induction cs as [|x cs IH]; intros m; csimpl; [done|].
  rewrite IH.
  destruct (decide (k ∈ (fun c => object.Email (who c)) <$> cs)) as [Hin|Hin].
  - rewrite decide_True; [done|]. by right.
  - destruct (decide (k = object.Email (who x))) as [->|Hne].
    + rewrite lookup_insert_eq. rewrite decide_True; [done|]. by left.
    + rewrite lookup_insert_ne by done. rewrite decide_False; [done|].
      intros [?|?]%elem_of_cons; done.
Qed.

Lemma collected_same_commits (it it' : object.CommitIter) :
  (∀ c, c ∈ object.Commits it ↔ c ∈ object.Commits it') ->
  collected it = collected it'.
Proof.
  intros Hsame. unfold collected, object.ForEach.
  rewrite !ForEach_record_emails. simpl.
  assert (∀ who k,
            k ∈ (fun c => object.Email (who c)) <$> object.Commits it
            ↔ k ∈ (fun c : object.Commit => object.Email (who c)) <$> object.Commits it')
    as Hmem.
  { intros who k. rewrite !list_elem_of_fmap. split; intros (c & -> & Hc); exists c;
      (split; [done|]); by apply Hsame. }
  f_equal; apply map_eq; intros k; rewrite !lookup_foldl_insert;
    repeat case_decide; try done; exfalso; naive_solver.
Qed.

(** X6.  What [contributeCommitters] emits depends on the walk through the
    set of commits it yields only: two walks that yield the same commits, in
    any order, any number of times each, and whether or not they end with an
    error, give a nil error, the same keys and, under each key, the same set
    of addresses.  The two runs range over their maps in orders of their own,
    so the lists agree up to the order of their strings. *)
Theorem committers_ignore_the_order_of_the_walk (oa oc oa' oc' : RangeOrder)
    (repository repository' : git.Repository) (headCommit targetCommit : object.Commit)
    (ancestor ancestor' : object.Commit) (others others' : list object.Commit)
    (it it' : object.CommitIter) :
  git.MergeBase repository headCommit targetCommit = Ok (ancestor :: others) ->
  git.Log repository
    {| git.From := object.Hash headCommit;
       git.Since := Some (object.When (object.Author ancestor)) |} = Ok it ->
  git.MergeBase repository' headCommit targetCommit = Ok (ancestor' :: others') ->
  git.Log repository'
    {| git.From := object.Hash headCommit;
       git.Since := Some (object.When (object.Author ancestor')) |} = Ok it' ->
  (∀ c, c ∈ object.Commits it ↔ c ∈ object.Commits it') ->
  let first := contributeCommitters oa oc repository headCommit targetCommit in
  let second := contributeCommitters oa' oc' repository' headCommit targetCommit in
  first.2 = None ∧ second.2 = None
  ∧ keys first.1 = keys second.1
  ∧ strings_under ScmAuthors first.1 = strings_under ScmAuthors second.1
  ∧ strings_under ScmCommitters first.1 = strings_under ScmCommitters second.1
  ∧ Forall2 same_up_to_order first.1 second.1.
Proof.
  intros Hmb Hlog Hmb' Hlog' Hsame. simpl.
  rewrite (contributeCommitters_walked _ _ _ _ _ _ _ _ Hmb Hlog).
  rewrite (contributeCommitters_walked _ _ _ _ _ _ _ _ Hmb' Hlog').
  rewrite <- (collected_same_commits it it' Hsame). simpl.
  destruct (emitted_sets oa oc (collected it).1 (collected it).2) as (Ha & Hc & _).
  destruct (emitted_sets oa' oc' (collected it).1 (collected it).2) as (Ha' & Hc' & _).
  simpl in *. rewrite Ha, Ha', Hc, Hc'.
  split; [done|]. split; [done|]. split.
  { assert (∀ l l' : list attribute.KeyValue, keys (l ++ l') = keys l ++ keys l')
      as Hk by (intros; apply fmap_app).
    by rewrite !Hk, !keys_emitted. }
  split; [done|]. split; [done|].
  apply Forall2_app; apply emitted_up_to_order.
Qed.

(** *** [contributeFilesAndLines] *)

Lemma wrap_range (z : Z) : int.InRange (int.wrap z).
Proof.
  unfold int.InRange, int.MinInt, int.MaxInt, int.wrap.
  pose proof (Z.mod_pos_bound (z + 2 ^ 63) (2 ^ 64)). lia.
Qed.

Lemma add_wrap_r (a b : Z) : int.add a (int.wrap b) = int.wrap (a + b).
Proof.
  unfold int.add. rewrite (Z.add_comm a (int.wrap b)).
  fold (int.add (int.wrap b) a). rewrite add_wrap_l. f_equal. lia.
Qed.

Lemma add_wrap_both (a b : Z) : int.add (int.wrap a) (int.wrap b) = int.wrap (a + b).
Proof.
  rewrite add_wrap_l.
  change (int.wrap (a + int.wrap b)) with (int.add a (int.wrap b)).
  apply add_wrap_r.
Qed.

Lemma total_app (count : object.FileStat -> Z) (l l' : list object.FileStat) :
  total count (l ++ l') = total count l + total count l'.
Proof.
  unfold total. induction l as [|x l IH]; simpl; [done|]. rewrite IH. lia.
Qed.

(** The two outcomes of [contributeFilesAndLines]. *)
Lemma contributeFilesAndLines_shape (repository : git.Repository)
    (headCommit targetCommit : object.Commit) :
  (∃ e, contributeFilesAndLines repository headCommit targetCommit = ([], Some e))
  ∨ (∃ stats,
       contributeFilesAndLines repository headCommit targetCommit
       = ([attribute.Int GitAdditions (int.wrap (total object.Addition stats));
           attribute.Int GitDeletions (int.wrap (total object.Deletion stats));
           attribute.Int GitModifiedFiles (Z.of_nat (length stats))], None)).
Proof.
  destruct (git.Tree repository headCommit) as [headTree|e] eqn:H1.
  2:{ left. unfold contributeFilesAndLines. rewrite H1. simpl. eauto. }
  destruct (git.Tree repository targetCommit) as [targetTree|e] eqn:H2.
  2:{ left. unfold contributeFilesAndLines. rewrite H1, H2. simpl. eauto. }
  destruct (git.Patch repository headTree targetTree) as [patch|e] eqn:H3.
  2:{ left. unfold contributeFilesAndLines. rewrite H1, H2, H3. simpl. eauto. }
  right. exists (object.Stats patch).
  by apply (contributeFilesAndLines_patch _ _ _ headTree targetTree).
Qed.

(** X7.  [contributeFilesAndLines] returns all of its attributes or none:
    with an error, no attribute; with a nil error, the three integers
    [git-additions], [git-deletions] and [git-modified-files], in this
    order, where the number of files is not negative, the two counts of lines
    are within the range of [int], and both are zero when no file
    changed. *)
Theorem diffstat_all_or_nothing (repository : git.Repository)
    (headCommit targetCommit : object.Commit) :
  let out := contributeFilesAndLines repository headCommit targetCommit in
  (out.2 ≠ None ↔ out.1 = [])
  ∧ (out.2 = None ->
     ∃ additions deletions files,
       out.1 = [attribute.Int GitAdditions additions;
                attribute.Int GitDeletions deletions;
                attribute.Int GitModifiedFiles files]
       ∧ 0 <= files
       ∧ int.InRange additions ∧ int.InRange deletions
       ∧ (files = 0 -> additions = 0 ∧ deletions = 0)).
Proof.
  simpl.
  destruct (contributeFilesAndLines_shape repository headCommit targetCommit)
    as [[e ->]|[stats ->]]; simpl.
  - split; [done|]. done.
  - split; [split; [done|discriminate]|]. intros _.
    eexists _, _, _. split; [done|]. split; [lia|].
    split; [apply wrap_range|]. split; [apply wrap_range|].
    intros Hz. destruct stats; [done|]. simpl in Hz. lia.
Qed.

(** X8.  The totals of a patch that lists the entries of one patch followed
    by those of another are the totals of the two, added as [int]s; the
    numbers of files add up. *)
Theorem diffstat_of_joined_patches (r1 r2 r12 : git.Repository)
    (headCommit targetCommit : object.Commit)
    (h1 t1 h2 t2 h12 t12 : object.Tree) (p1 p2 p12 : object.Patch) :
  git.Tree r1 headCommit = Ok h1 -> git.Tree r1 targetCommit = Ok t1 ->
  git.Patch r1 h1 t1 = Ok p1 ->
  git.Tree r2 headCommit = Ok h2 -> git.Tree r2 targetCommit = Ok t2 ->
  git.Patch r2 h2 t2 = Ok p2 ->
  git.Tree r12 headCommit = Ok h12 -> git.Tree r12 targetCommit = Ok t12 ->
  git.Patch r12 h12 t12 = Ok p12 ->
  object.Stats p12 = object.Stats p1 ++ object.Stats p2 ->
  ∃ a1 d1 n1 a2 d2 n2,
    contributeFilesAndLines r1 headCommit targetCommit
    = ([attribute.Int GitAdditions a1; attribute.Int GitDeletions d1;
        attribute.Int GitModifiedFiles n1], None)
    ∧ contributeFilesAndLines r2 headCommit targetCommit
      = ([attribute.Int GitAdditions a2; attribute.Int GitDeletions d2;
          attribute.Int GitModifiedFiles n2], None)
    ∧ contributeFilesAndLines r12 headCommit targetCommit
      = ([attribute.Int GitAdditions (int.add a1 a2);
          attribute.Int GitDeletions (int.add d1 d2);
          attribute.Int GitModifiedFiles (n1 + n2)], None).
Proof.
  intros A1 A2 A3 B1 B2 B3 C1 C2 C3 Hjoin.
  eexists _, _, _, _, _, _.
  rewrite (contributeFilesAndLines_patch _ _ _ _ _ _ A1 A2 A3).
  rewrite (contributeFilesAndLines_patch _ _ _ _ _ _ B1 B2 B3).
  rewrite (contributeFilesAndLines_patch _ _ _ _ _ _ C1 C2 C3).
  split; [done|]. split; [done|].
  rewrite Hjoin, !total_app, length_app, Nat2Z.inj_add.
  by rewrite !add_wrap_both.
Qed.

(** *** [calculateCommits] *)

(** X9.  [calculateCommits] returns both commits or neither: its error is
    nil exactly when the head commit is there, and the head commit is there
    exactly when the target commit is. *)
Theorem calculateCommits_both_or_neither (host : Host) (repository : git.Repository)
    (headSha targetBranchEnv : string) :
  let '(headCommit, targetCommit, err) :=
    calculateCommits host repository headSha targetBranchEnv in
  (err = None ↔ is_Some headCommit) ∧ (is_Some headCommit ↔ is_Some targetCommit).
Proof.
  destruct (calculateCommits_shape host repository headSha targetBranchEnv)
    as [[e ->]|(h & t & ->)].
  - split; split; try done; by intros [? ?].
  - split; split; eauto.
Qed.

(** *** [contributeAttributes] *)

Ltac by_evaluation := apply (bool_decide_unpack _); vm_compute; exact I.

Lemma keys_app (l l' : list attribute.KeyValue) : keys (l ++ l') = keys l ++ keys l'.
Proof. unfold keys. apply fmap_app. Qed.

Lemma keys_kept_committers (oa oc : RangeOrder) (repository : git.Repository)
    (headCommit targetCommit : object.Commit) :
  ∃ people : bool,
    keys (kept (contributeCommitters oa oc repository headCommit targetCommit))
    = if people then [ScmAuthors; ScmCommitters] else [].
Proof.
  destruct (contributeCommitters_shape oa oc repository headCommit targetCommit)
    as [[e ->]|[->|(la & lc & -> & _)]]; simpl.
  - by exists false.
  - by exists false.
  - by exists true.
Qed.

Lemma keys_kept_files (repository : git.Repository)
    (headCommit targetCommit : object.Commit) :
  ∃ counts : bool,
    keys (kept (contributeFilesAndLines repository headCommit targetCommit))
    = if counts then [GitAdditions; GitDeletions; GitModifiedFiles] else [].
Proof.
  destruct (contributeFilesAndLines_shape repository headCommit targetCommit)
    as [[e ->]|[stats ->]]; simpl.
  - by exists false.
  - by exists true.
Qed.

(** A pass returns nothing, or what it holds once the repository is open
    followed by attributes whose keys are some [later_keys]. *)
Lemma pass_structure (host : Host) (oa oc : RangeOrder) (scm : GitScm) :
  (∃ e, PlainOpen host (repositoryPath scm) = Err e
        ∧ contributeAttributes host oa oc scm = Some [])
  ∨ (∃ repository rest remote branch people counts,
       PlainOpen host (repositoryPath scm) = Ok repository
       ∧ contributeAttributes host oa oc scm = Some (opened host ++ rest)
       ∧ keys rest = later_keys remote branch people counts).
Proof.
  unfold contributeAttributes, openLocalRepository.
  destruct (PlainOpen host (repositoryPath scm)) as [repository|e] eqn:Hopen.
  2:{ left. eauto. }
  right. exists repository. cbv zeta.
  replace (if decide ((checkGitProvider host).2 ≠ "")
           then [attribute.String ScmType "git"]
                ++ [attribute.String ScmProvider (checkGitProvider host).2]
           else [attribute.String ScmType "git"])
    with (opened host) by (unfold opened; by case_decide).
  destruct (git.Remote repository "origin") as [origin|e].
  2:{ exists [], false, false, false, false. by rewrite app_nil_r. }
  destruct (git.Head repository) as [branch|e].
  2:{ eexists _, true, false, false, false. done. }
  destruct (calculateCommits_shape host repository
              (checkGitProvider host).1.1 (checkGitProvider host).1.2)
    as [[e ->]|(headCommit & targetCommit & ->)].
  - eexists _, true, true, false, false. rewrite <- app_assoc. done.
  - cbn [fold_left]. rewrite !contribute_kept, <- !app_assoc.
    destruct (keys_kept_committers oa oc repository headCommit targetCommit)
      as [people Hp].
    destruct (keys_kept_files repository headCommit targetCommit) as [counts Hc].
    eexists _, true, true, people, counts. split; [done|]. split; [done|].
    rewrite !keys_app, Hp, Hc. done.
Qed.

Lemma keys_opened (host : Host) :
  keys (opened host)
  = if decide ((checkGitProvider host).2 ≠ "") then [ScmType; ScmProvider] else [ScmType].
Proof. unfold opened. by case_decide. Qed.

(** X2.  A pass reports the provider exactly when it could open the
    repository and [checkGitProvider] named a provider; the attribute is then
    the second of the list, after the type, and its value is the name of the
    provider. *)
Theorem provider_is_reported_when_named (host : Host) (oa oc : RangeOrder)
    (scm : GitScm) :
  ∃ attrs,
    contributeAttributes host oa oc scm = Some attrs
    ∧ (ScmProvider ∈ keys attrs ↔ attrs ≠ [] ∧ (checkGitProvider host).2 ≠ "")
    ∧ (ScmProvider ∈ keys attrs ->
       attrs !! 1%nat
       = Some (attribute.String ScmProvider (checkGitProvider host).2)).
Proof.
  destruct (pass_structure host oa oc scm)
    as [(e & _ & ->)|(repository & rest & r & b & p & c & _ & -> & Hrest)].
  - exists []. split; [done|]. split.
    + split; [by intros ?%elem_of_nil|by intros [? _]].
    + by intros ?%elem_of_nil.
  - eexists. split; [done|].
    assert (ScmProvider ∉ keys rest) as Hnot.
    { rewrite Hrest. destruct r, b, p, c; by_evaluation. }
    rewrite keys_app, keys_opened. unfold opened.
    case_decide as Hp; simpl.
    + split; [|done]. split; [done|]. intros _. right. by left.
    + split.
      * split; [|by intros [_ ?]].
        intros [?|Hin]%elem_of_cons; [done|]. by apply Hnot in Hin.
      * intros [?|Hin]%elem_of_cons; [done|]. by apply Hnot in Hin.
Qed.

Lemma all_keys_NoDup : NoDup all_keys.
Proof. by_evaluation. Qed.

(** X10.  The keys of the attributes a pass returns are taken from the nine
    keys of the program in their fixed order: type, provider, repository,
    branch, authors, committers, additions, deletions, modified files.  No
    key is emitted twice and a pass returns at most nine attributes. *)
Theorem keys_in_fixed_order (host : Host) (oa oc : RangeOrder) (scm : GitScm) :
  ∃ attrs,
    contributeAttributes host oa oc scm = Some attrs
    ∧ keys attrs `sublist_of` all_keys
    ∧ NoDup (keys attrs)
    ∧ (length attrs <= 9)%nat.
Proof.
  assert (∃ attrs, contributeAttributes host oa oc scm = Some attrs
                   ∧ keys attrs `sublist_of` all_keys) as (attrs & He & Hsub).
  { destruct (pass_structure host oa oc scm)
      as [(e & _ & ->)|(repository & rest & r & b & p & c & _ & -> & Hrest)].
    - exists []. split; [done|]. apply sublist_nil_l.
    - eexists. split; [done|].
      rewrite keys_app, keys_opened, Hrest. unfold all_keys.
      case_decide; destruct r, b, p, c; simpl;
        repeat first [apply sublist_nil | apply sublist_skip | apply sublist_cons]. }
  exists attrs. split; [done|]. split; [done|].
  split; [eapply sublist_NoDup; [apply all_keys_NoDup|exact Hsub]|].
  apply sublist_length in Hsub. unfold keys in Hsub. rewrite length_fmap in Hsub.
  exact Hsub.
Qed.

(** X11.  What a pass reports is nested: the branch only with the
    repository; the e-mail lists and the counts only with the branch; the
    authors exactly with the committers; and the three counts exactly
    together. *)
Theorem reported_keys_are_nested (host : Host) (oa oc : RangeOrder) (scm : GitScm) :
  ∃ attrs,
    contributeAttributes host oa oc scm = Some attrs
    ∧ (ScmBranch ∈ keys attrs -> ScmRepository ∈ keys attrs)
    ∧ (ScmAuthors ∈ keys attrs -> ScmBranch ∈ keys attrs)
    ∧ (GitAdditions ∈ keys attrs -> ScmBranch ∈ keys attrs)
    ∧ (ScmAuthors ∈ keys attrs ↔ ScmCommitters ∈ keys attrs)
    ∧ (GitAdditions ∈ keys attrs ↔ GitDeletions ∈ keys attrs)
    ∧ (GitDeletions ∈ keys attrs ↔ GitModifiedFiles ∈ keys attrs).
Proof.
  destruct (pass_structure host oa oc scm)
    as [(e & _ & ->)|(repository & rest & r & b & p & c & _ & -> & Hrest)].
  - exists []. split; [done|]. repeat split; by intros ?%elem_of_nil.
  - eexists. split; [done|].
    rewrite keys_app, keys_opened, Hrest.
    case_decide; destruct r, b, p, c; by_evaluation.
Qed.

Lemma same_attribute_refl (l : list attribute.KeyValue) : Forall2 same_attribute l l.
Proof. induction l; constructor; [by left|done]. Qed.

Lemma emitted_same_attribute (key : string) (order order' : RangeOrder)
    (m : gmap string bool) :
  key = ScmAuthors ∨ key = ScmCommitters ->
  Forall2 same_attribute (emitted key order m) (emitted key order' m).
Proof.
  intros Hkey. unfold emitted. case_decide; constructor; [|constructor].
  right. split; [done|]. split; [done|].
  eexists _, _. split; [done|]. split; [done|]. by rewrite !mapToArray_perm.
Qed.

Lemma kept_committers_up_to_order (oa oc oa' oc' : RangeOrder)
    (repository : git.Repository) (headCommit targetCommit : object.Commit) :
  Forall2 same_attribute
    (kept (contributeCommitters oa oc repository headCommit targetCommit))
    (kept (contributeCommitters oa' oc' repository headCommit targetCommit)).
Proof.
  destruct (git.MergeBase repository headCommit targetCommit)
    as [[|ancestor others]|e] eqn:Hmb.
  - unfold contributeCommitters. rewrite Hmb. simpl. constructor.
  - destruct (git.Log repository
                {| git.From := object.Hash headCommit;
                   git.Since := Some (object.When (object.Author ancestor)) |})
      as [it|e] eqn:Hlog.
    + rewrite !(contributeCommitters_walked _ _ _ _ _ _ _ _ Hmb Hlog). simpl.
      apply Forall2_app; apply emitted_same_attribute; auto.
    + unfold contributeCommitters. rewrite Hmb, Hlog. simpl. constructor.
  - unfold contributeCommitters. rewrite Hmb. simpl. constructor.
Qed.

(** X12.  Two passes over the same checkout and environment return the same
    attributes in the same order, whatever the orders in which their loops
    range over the maps of e-mail addresses: position by position the two
    attributes are equal, or they are both [scm-authors] or both
    [scm-committers] and hold the same strings in another order. *)
Theorem passes_agree_up_to_order (host : Host) (oa oc oa' oc' : RangeOrder)
    (scm : GitScm) :
  ∃ attrs attrs',
    contributeAttributes host oa oc scm = Some attrs
    ∧ contributeAttributes host oa' oc' scm = Some attrs'
    ∧ Forall2 same_attribute attrs attrs'.
Proof.
  unfold contributeAttributes, openLocalRepository.
  destruct (PlainOpen host (repositoryPath scm)) as [repository|e].
  2:{ eexists _, _. split; [done|]. split; [done|]. constructor. }
  cbv zeta.
  destruct (git.Remote repository "origin") as [origin|e].
  2:{ eexists _, _. split; [done|]. split; [done|]. apply same_attribute_refl. }
  destruct (git.Head repository) as [branch|e].
  2:{ eexists _, _. split; [done|]. split; [done|]. apply same_attribute_refl. }
  destruct (calculateCommits_shape host repository
              (checkGitProvider host).1.1 (checkGitProvider host).1.2)
    as [[e ->]|(headCommit & targetCommit & ->)].
  - eexists _, _. split; [done|]. split; [done|]. apply same_attribute_refl.
  - eexists _, _. split; [done|]. split; [done|].
    cbn [fold_left]. rewrite !contribute_kept.
    apply Forall2_app; [apply Forall2_app|]; try apply same_attribute_refl.
    apply kept_committers_up_to_order.
Qed.

(** *** The further properties on the example repositories *)

Lemma emitted_lists_witness :
  let repository :=
    Model.open (Scenario.three_commits Scenario.ann Scenario.ann Scenario.ann
                  Scenario.ann Scenario.cat Scenario.cat) in
  let head := Scenario.C3 Scenario.cat Scenario.cat in
  let target := Scenario.C1 Scenario.ann Scenario.ann in
  let kv := attribute.StringSlice ScmAuthors ["cat@example.org"; "ann@example.org"] in
  kv ∈ (contributeCommitters range_in_order range_in_order repository head target).1
  ∧ ∃ l, attribute.Val kv = attribute.STRINGSLICE l ∧ NoDup l ∧ l ≠ [].
Proof.
  intros repository head target kv.
  assert (kv ∈ (contributeCommitters range_in_order range_in_order
                  repository head target).1) as Hin.
  { assert ((contributeCommitters range_in_order range_in_order
               repository head target).1
            = [kv; attribute.StringSlice ScmCommitters
                     ["cat@example.org"; "ann@example.org"]]) as ->
      by (vm_compute; reflexivity).
    by left. }
  split; [exact Hin|].
  exact (emitted_lists_have_no_duplicate range_in_order range_in_order
           repository head target kv Hin).
Defined.

Lemma order_of_the_walk_witness :
  let repository := Model.open Scenario.project in
  let it' :=
    {| object.Commits := [Scenario.P1; Scenario.P3; Scenario.P2; Scenario.P1];
       object.IterErr := Some Model.ErrObjectNotFound |} in
  let repository' := Scenario.with_log repository it' in
  let first :=
    contributeCommitters range_in_order range_in_order repository
      Scenario.P3 Scenario.P1 in
  let second :=
    contributeCommitters range_reversed range_in_order repository'
      Scenario.P3 Scenario.P1 in
  git.Log repository {| git.From := "c3"; git.Since := Some 100 |}
  = Ok {| object.Commits := [Scenario.P3; Scenario.P2; Scenario.P1];
          object.IterErr := None |}
  ∧ git.Log repository' {| git.From := "c3"; git.Since := Some 100 |} = Ok it'
  ∧ first.1 ≠ second.1
  ∧ first.2 = None ∧ second.2 = None
  ∧ keys first.1 = keys second.1
  ∧ strings_under ScmAuthors first.1 = strings_under ScmAuthors second.1
  ∧ strings_under ScmCommitters first.1 = strings_under ScmCommitters second.1
  ∧ Forall2 same_up_to_order first.1 second.1.
Proof.
  intros repository it' repository' first second.
  assert (git.MergeBase repository Scenario.P3 Scenario.P1 = Ok [Scenario.P1])
    as Hmb by (vm_compute; reflexivity).
  assert (git.Log repository
            {| git.From := object.Hash Scenario.P3;
               git.Since := Some (object.When (object.Author Scenario.P1)) |}
          = Ok {| object.Commits := [Scenario.P3; Scenario.P2; Scenario.P1];
                  object.IterErr := None |}) as Hlog
    by (vm_compute; reflexivity).
  assert (git.MergeBase repository' Scenario.P3 Scenario.P1 = Ok [Scenario.P1])
    as Hmb' by (vm_compute; reflexivity).
  assert (git.Log repository'
            {| git.From := object.Hash Scenario.P3;
               git.Since := Some (object.When (object.Author Scenario.P1)) |}
          = Ok it') as Hlog' by reflexivity.
  assert (∀ c, c ∈ [Scenario.P3; Scenario.P2; Scenario.P1]
               ↔ c ∈ [Scenario.P1; Scenario.P3; Scenario.P2; Scenario.P1]) as Hsame.
  { intros c. rewrite !elem_of_cons. tauto. }
  split; [exact Hlog|]. split; [exact Hlog'|].
  split; [vm_compute; discriminate|].
  exact (committers_ignore_the_order_of_the_walk range_in_order range_in_order
           range_reversed range_in_order
           repository repository' Scenario.P3 Scenario.P1 Scenario.P1 Scenario.P1 [] []
           _ it' Hmb Hlog Hmb' Hlog' Hsame).
Defined.

Lemma joined_patches_witness :
  let r1 := Scenario.with_stats (Model.open Scenario.project)
              [Scenario.stat_a; Scenario.stat_b] in
  let r2 := Scenario.with_stats (Model.open Scenario.project) [Scenario.stat_c] in
  let r12 := Scenario.with_stats (Model.open Scenario.project)
               [Scenario.stat_a; Scenario.stat_b; Scenario.stat_c] in
  contributeFilesAndLines r1 Scenario.P3 Scenario.P1
  = ([attribute.Int GitAdditions 3; attribute.Int GitDeletions 1;
      attribute.Int GitModifiedFiles 2], None)
  ∧ contributeFilesAndLines r2 Scenario.P3 Scenario.P1
    = ([attribute.Int GitAdditions 2; attribute.Int GitDeletions 5;
        attribute.Int GitModifiedFiles 1], None)
  ∧ contributeFilesAndLines r12 Scenario.P3 Scenario.P1
    = ([attribute.Int GitAdditions 5; attribute.Int GitDeletions 6;
        attribute.Int GitModifiedFiles 3], None).
Proof.
  intros r1 r2 r12.
  destruct (diffstat_of_joined_patches r1 r2 r12 Scenario.P3 Scenario.P1
              Scenario.T3 Scenario.T1 Scenario.T3 Scenario.T1 Scenario.T3 Scenario.T1
              {| object.Stats := [Scenario.stat_a; Scenario.stat_b] |}
              {| object.Stats := [Scenario.stat_c] |}
              {| object.Stats := [Scenario.stat_a; Scenario.stat_b; Scenario.stat_c] |}
              eq_refl eq_refl eq_refl eq_refl eq_refl eq_refl eq_refl eq_refl eq_refl
              eq_refl)
    as (a1 & d1 & n1 & a2 & d2 & n2 & H1 & H2 & H12).
  assert (contributeFilesAndLines r1 Scenario.P3 Scenario.P1
          = ([attribute.Int GitAdditions 3; attribute.Int GitDeletions 1;
              attribute.Int GitModifiedFiles 2], None)) as E1
    by (vm_compute; reflexivity).
  assert (contributeFilesAndLines r2 Scenario.P3 Scenario.P1
          = ([attribute.Int GitAdditions 2; attribute.Int GitDeletions 5;
              attribute.Int GitModifiedFiles 1], None)) as E2
    by (vm_compute; reflexivity).
  split; [exact E1|]. split; [exact E2|].
  rewrite E1 in H1. injection H1 as <- <- <-.
  rewrite E2 in H2. injection H2 as <- <- <-.
  exact H12.
Defined.
